(** * The transaction builder of lucid ([src/lucid/tx.ts])

    A shallow embedding of the class [Tx]: its builder methods, the queue of
    deferred tasks, and [complete].

    What [tx.ts] imports is handled as follows.
    - The serialization library [C] (constructors such as
      [C.PlutusData.from_bytes], and the methods of [C.TransactionBuilder])
      and the codec helpers [fromHex], [assetsToValue], [utxoToCore] are
      represented by the free model of their calls: a value is the
      constructor call that produced it, and [txBuilder] is the list of the
      method calls it has received, oldest first.  Decoding errors raised
      inside the library are not part of the embedding.
    - [lucid.utils], [lucid.datumOf], [lucid.wallet] and the global [fetch]
      are parameters; a parameter that answers [None] has thrown.
    - [C.RewardAddress.from_address] answers [undefined] on an address that
      is not a reward address: which addresses are is the parameter
      [is_reward], and what the binding of [add_withdrawal] does with
      [undefined] is the parameter [takes_undefined].
    - Every [throw new Error(msg)] of [tx.ts] is modelled with its message.
    - [attachMetadata] and [attachMetadataWithConversion], which only forward
      a JSON value to the builder, are left out. *)

From Stdlib Require Import List String Ascii ZArith Bool Arith Lia.
Import ListNotations.
Local Open Scope string_scope.
Local Open Scope list_scope.

(** ** JavaScript values *)

(** Truthiness of an optional string ([undefined] and the empty string are
    falsy). *)
Definition truthy (o : option string) : bool :=
  match o with
  | Some s => negb (s =? "")
  | None => false
  end.

(** The string read from a property: used where the property is truthy. *)
Definition the (o : option string) : string :=
  match o with
  | Some s => s
  | None => ""
  end.

(** A property is set when it holds a value, whatever the value. *)
Definition is_set {A : Type} (o : option A) : bool :=
  match o with
  | Some _ => true
  | None => false
  end.

(** [s.slice(0, n)] and [s.slice(n)]. *)
Definition slice_to (n : nat) (s : string) : string := substring 0 n s.
Definition slice_from (n : nat) (s : string) : string :=
  substring n (String.length s - n) s.

(** [s.split(sep)] for a one-character separator. *)
Fixpoint split_go (sep : ascii) (cur : string) (s : string) : list string :=
  match s with
  | EmptyString => [cur]
  | String c rest =>
      if Ascii.eqb c sep then cur :: split_go sep EmptyString rest
      else split_go sep (cur ++ String c EmptyString) rest
  end.
Definition split (sep : ascii) (s : string) : list string :=
  split_go sep EmptyString s.

(** [s.replaceAll(c, "")]. *)
Fixpoint remove_all (c : ascii) (s : string) : string :=
  match s with
  | EmptyString => EmptyString
  | String d rest =>
      if Ascii.eqb d c then remove_all c rest else String d (remove_all c rest)
  end.

(** ** The types of [../types/mod.ts] that [tx.ts] uses *)

Definition Address := string.
Definition RewardAddress := string.
Definition Datum := string.
Definition Redeemer := string.
Definition Unit := string.
Definition PoolId := string.
Definition PaymentKeyHash := string.
Definition Lovelace := Z.
Definition UnixTime := Z.

(** [Assets = Record<Unit, bigint>], as the list of its entries in the order
    of [Object.keys]. *)
Definition Assets := list (Unit * Z).

Inductive ScriptType := Native | PlutusV1 | PlutusV2.

Record Script := { script_type : ScriptType; script : string }.

Record OutputData := {
  asHash : option Datum;
  inline : option Datum;
  scriptRef : option Script
}.

(** The parameter type [Datum | OutputData]. *)
Inductive DatumOrOutputData :=
| ofDatum (d : Datum)
| ofOutputData (o : OutputData).

Inductive CredentialType := Key | ScriptCredential.

Record Credential := { cred_type : CredentialType; hash : string }.

Inductive AddressType := Base | Enterprise | Pointer | Reward.

Record AddressDetails := {
  address_type : AddressType;
  paymentCredential : option Credential;
  stakeCredential : option Credential
}.

Record UTxO := {
  txHash : string;
  outputIndex : nat;
  utxo_assets : Assets;
  utxo_address : Address;
  datumHash : option string;
  datum : option Datum
}.

Inductive RelayType := SingleHostIp | SingleHostDomainName | MultiHost.

Record Relay := {
  relay_type : RelayType;
  ipV4 : option string;
  ipV6 : option string;
  port : option nat;
  domainName : option string
}.

Record PoolParams := {
  poolId : PoolId;
  vrfKeyHash : string;
  pledge : Lovelace;
  cost : Lovelace;
  margin : Z * Z;      (* a number in [0,1], carried as a fraction, never computed with *)
  rewardAddress : RewardAddress;
  owners : list RewardAddress;
  relays : list Relay;
  metadataUrl : option string
}.

(** ** The serialization library [C], as the free model of its calls *)

Module C.

(** [fromHex(hex)]. *)
Inductive Bytes := fromHex (hex : string).

Inductive PlutusData := PlutusData_from_bytes (b : Bytes).

Inductive Ed25519KeyHash :=
| Ed25519KeyHash_from_bytes (b : Bytes)
| Ed25519KeyHash_from_hex (h : string)
| Ed25519KeyHash_from_bech32 (s : string).

Inductive ScriptHash := ScriptHash_from_bytes (b : Bytes).

Inductive StakeCredential :=
| from_keyhash (k : Ed25519KeyHash)
| from_scripthash (s : ScriptHash).

Inductive AssetName := AssetName_new (b : Bytes).
Inductive Int := Int_from_str (z : Z).
Inductive BigNum := BigNum_from_str (z : Z).

(** [C.MintAssets.new()] followed by its [insert] calls, oldest first. *)
Definition MintAssets := list (AssetName * Int).

Record PlutusWitness := PlutusWitness_new {
  witness_redeemer : PlutusData;
  witness_datum : option PlutusData;
  witness_script : option unit
}.

Inductive ScriptWitness := new_plutus_witness (w : PlutusWitness).

Inductive Address := Address_from_bech32 (s : string).

(** A reward address is the address it was narrowed from. *)
Inductive RewardAddress := RewardAddress_of (a : Address).

(** [assetsToValue(assets)]. *)
Inductive Value := assetsToValue (a : Assets).

Inductive DataHash := hash_plutus_data (d : PlutusData).
Inductive Data := Data_new (d : PlutusData).
Inductive Datum := new_data_hash (h : DataHash) | new_data (d : Data).

Inductive NativeScript := NativeScript_from_bytes (b : Bytes).
Inductive PlutusScript := PlutusScript_from_bytes (b : Bytes).
Inductive Script :=
| new_native (s : NativeScript)
| new_plutus_v1 (s : PlutusScript)
| new_plutus_v2 (s : PlutusScript).
Inductive ScriptRef := ScriptRef_new (s : Script).

(** [C.TransactionOutput.new(address, amount)] and its setters. *)
Record TransactionOutput := {
  out_address : Address;
  out_amount : Value;
  out_datum : option Datum;
  out_script_ref : option ScriptRef
}.

Definition TransactionOutput_new (a : Address) (v : Value) : TransactionOutput :=
  {| out_address := a; out_amount := v; out_datum := None; out_script_ref := None |}.
Definition set_datum (d : Datum) (o : TransactionOutput) : TransactionOutput :=
  {| out_address := out_address o; out_amount := out_amount o;
     out_datum := Some d; out_script_ref := out_script_ref o |}.
Definition set_script_ref (r : ScriptRef) (o : TransactionOutput) : TransactionOutput :=
  {| out_address := out_address o; out_amount := out_amount o;
     out_datum := out_datum o; out_script_ref := Some r |}.

(** [utxoToCore(utxo)]. *)
Inductive TransactionUnspentOutput := utxoToCore (u : UTxO).
Definition TransactionUnspentOutputs := list TransactionUnspentOutput.

(** [parseInt(s)]. *)
Inductive Number := parseInt (s : string).
Inductive Ipv4 := Ipv4_new (bytes : list Number).
Inductive Ipv6 := Ipv6_new (b : Bytes).

Inductive Relay :=
| new_single_host_addr (port : option nat) (v4 : option Ipv4) (v6 : option Ipv6)
| new_single_host_name (port : option nat) (dns : option string)
| new_multi_host_name (dns : option string).

Inductive PoolMetadataHash := hash_blake2b256 (body : string).

Record PoolMetadata := PoolMetadata_new {
  metadata_url : string;
  metadata_hash : PoolMetadataHash
}.

Record PoolParams := PoolParams_new {
  operator : Ed25519KeyHash;
  vrf_keyhash : string;
  pp_pledge : BigNum;
  pp_cost : BigNum;
  pp_margin : Z * Z;
  reward_account : option RewardAddress;
  pool_owners : list Ed25519KeyHash;
  pp_relays : list Relay;
  pool_metadata : option PoolMetadata
}.

Record PoolRegistration := {
  pool_params : PoolParams;
  is_update : bool
}.

Definition PoolRegistration_new (p : PoolParams) : PoolRegistration :=
  {| pool_params := p; is_update := false |}.
Definition set_is_update (b : bool) (r : PoolRegistration) : PoolRegistration :=
  {| pool_params := pool_params r; is_update := b |}.

Inductive Certificate :=
| new_stake_registration (c : StakeCredential)
| new_stake_deregistration (c : StakeCredential)
| new_stake_delegation (c : StakeCredential) (pool : Ed25519KeyHash)
| new_pool_registration (r : PoolRegistration)
| new_pool_retirement (pool : Ed25519KeyHash) (epoch : Z).

(** The methods of [C.TransactionBuilder] that [tx.ts] calls. *)
Inductive Call :=
| add_reference_input (u : TransactionUnspentOutput)
| add_input (u : TransactionUnspentOutput) (w : option ScriptWitness)
| add_plutus_data (d : PlutusData)
| add_mint (policy : ScriptHash) (assets : MintAssets) (w : option ScriptWitness)
| add_output (o : TransactionOutput)
| add_certificate (c : Certificate) (w : option ScriptWitness)
| add_withdrawal (a : option RewardAddress) (amount : BigNum) (w : option ScriptWitness)
| add_required_signer (k : Ed25519KeyHash)
| set_validity_start_interval (slot : BigNum)
| set_ttl (slot : BigNum)
| add_native_script (s : NativeScript)
| add_plutus_script (s : PlutusScript)
| add_plutus_v2_script (s : PlutusScript)
| add_inputs_from (utxos : TransactionUnspentOutputs) (change : Address)
| balance (change : Address) (d : option Datum)
| construct (utxos : TransactionUnspentOutputs) (change : Address).

(** The transaction [construct] returns: what the builder had received. *)
Inductive Transaction := Transaction_of (calls : list Call).

End C.

(** ** Exceptions *)

Inductive Collaborator := Resolver | DatumLookup | Wallet | Fetcher | Engine.

Inductive Thrown :=
| Error (msg : string)          (* [throw new Error(msg)] in [tx.ts] *)
| TypeError                     (* a property read on [undefined] *)
| Rejected (who : Collaborator). (* thrown by a collaborator *)

(** The messages of [tx.ts], under the names the specification gives to the
    kinds of failure. *)
Definition InvalidAddress : Thrown := Error "Not a reward address provided.".
Definition MixedPolicyError : Thrown :=
  Error "Only one Policy Id allowed. You can chain multiple mintAssets events together if you need to mint assets with different Policy Ids.".
Definition ConflictingDatumError : Thrown :=
  Error "Not allowed to set asHash and inline at the same time.".
Definition UnspendableOutputError : Thrown :=
  Error "No datum set. Script output becomes unspendable without datum.".
Definition UnsupportedCredentialType : Thrown :=
  Error "Only key hashes allowed for pool owners.".
Definition UnknownScriptVariant : Thrown := Error "No variant matched.".

Inductive Outcome (A : Type) :=
| Ok (a : A)
| Throw (e : Thrown).
Arguments Ok {A} a.
Arguments Throw {A} e.

(** ** The [lucid] object *)

Record Lucid := {
  getAddressDetails : string -> option AddressDetails;   (* lucid.utils *)
  unixTimeToSlot : UnixTime -> Z;                        (* lucid.utils *)
  datumOf : UTxO -> option Datum;                        (* lucid.datumOf *)
  getUtxosCore : option C.TransactionUnspentOutputs;     (* lucid.wallet *)
  wallet_address : option Address                        (* lucid.wallet.address *)
}.

(** ** Builder state, tasks and the monad of builder methods *)

(** What the outside world sees of a build: the collaborators and timers it
    awaits. *)
Inductive Event :=
| AwaitDatumOf (u : UTxO)
| AwaitFetch (url : string)
| AwaitGetUtxosCore
| AwaitWalletAddress
| AwaitTimer (ms : nat).

Section Builder.

(** The state that the callbacks of [applyIf] close over. *)
Context {W : Type}.

(** Everything a method can touch except the queue itself. *)
Record Env := {
  txBuilder : list C.Call;
  events : list Event;
  user : W
}.

(** A task of the queue is a closure over [this]: it runs against the
    state and may push further tasks on [this.tasks]. *)
#[warnings="-register-all"]
Inductive Task :=
| mkTask (run : Env -> Env * list Task * Outcome unit).

Definition run (t : Task) : Env -> Env * list Task * Outcome unit :=
  match t with mkTask r => r end.

(** A method body: state in, state out, the tasks it pushed, and its
    result.  The state and the pushed tasks survive a throw. *)
Definition M (A : Type) : Type := Env -> Env * list Task * Outcome A.

Definition ret {A} (a : A) : M A := fun e => (e, [], Ok a).

Definition throw {A} (x : Thrown) : M A := fun e => (e, [], Throw x).

Definition bind {A B} (m : M A) (k : A -> M B) : M B :=
  fun e =>
    match m e with
    | (e1, q1, Ok a) =>
        match k a e1 with
        | (e2, q2, r) => (e2, q1 ++ q2, r)
        end
    | (e1, q1, Throw x) => (e1, q1, Throw x)
    end.

(** [this.tasks.push(t)]. *)
Definition push (t : M unit) : M unit := fun e => (e, [mkTask t], Ok tt).

(** A method call on [this.txBuilder]. *)
Definition call (c : C.Call) : M unit :=
  fun e =>
    ({| txBuilder := txBuilder e ++ [c]; events := events e; user := user e |},
     [], Ok tt).

Definition emit (ev : Event) : M unit :=
  fun e =>
    ({| txBuilder := txBuilder e; events := events e ++ [ev]; user := user e |},
     [], Ok tt).

(** Awaiting a collaborator: the call is observed, and its rejection
    propagates. *)
Definition await {A} (ev : Event) (who : Collaborator) (answer : option A) : M A :=
  bind (emit ev) (fun _ =>
    match answer with
    | Some a => ret a
    | None => throw (Rejected who)
    end).

(** A synchronous collaborator. *)
Definition ask {A} (who : Collaborator) (answer : option A) : M A :=
  match answer with
  | Some a => ret a
  | None => throw (Rejected who)
  end.

End Builder.

Arguments Env : clear implicits.
Arguments Task : clear implicits.
Arguments M : clear implicits.

Declare Scope tx_scope.
Delimit Scope tx_scope with tx.
Notation "x <- m ;; k" := (bind m (fun x => k))
  (at level 61, m at next level, right associativity) : tx_scope.
Notation "m ;; k" := (bind m (fun _ => k))
  (at level 61, right associativity) : tx_scope.

(** ** The methods of [Tx] *)

Record ChangeDatum := {
  change_asHash : option Datum;
  change_inline : option Datum
}.

(** The argument of [complete]. *)
Record CompleteOptions := {
  changeAddress : option Address;
  options_datum : option ChangeDatum;
  coinSelection : option bool
}.

Record TxComplete := {
  txComplete_lucid : Lucid;
  txComplete : C.Transaction
}.

Section Methods.

Context {W : Type}.

(** [this.lucid]. *)
Variable lucid : Lucid.

(** Whether [C.RewardAddress.from_address] recognises a reward address. *)
Variable is_reward : C.Address -> bool.

(** The global [fetch(url).then(res => res.arrayBuffer())]. *)
Variable fetch : string -> option string.

(** Whether the binding of [add_withdrawal] lets [undefined] through where it
    expects a reward address. *)
Variable takes_undefined : bool.

Local Open Scope tx_scope.

Definition RewardAddress_from_address (a : C.Address) : option C.RewardAddress :=
  if is_reward a then Some (C.RewardAddress_of a) else None.

(** [redeemer ? C.ScriptWitness.new_plutus_witness(C.PlutusWitness.new(
    C.PlutusData.from_bytes(fromHex(redeemer)), datum, undefined)) : undefined]. *)
Definition plutus_witness (redeemer : option Redeemer) (d : option C.PlutusData)
  : option C.ScriptWitness :=
  if truthy redeemer
  then Some (C.new_plutus_witness
               (C.PlutusWitness_new (C.PlutusData_from_bytes (C.fromHex (the redeemer)))
                  d None))
  else None.

Definition with_datum (utxo : UTxO) (d : Datum) : UTxO :=
  {| txHash := txHash utxo; outputIndex := outputIndex utxo;
     utxo_assets := utxo_assets utxo; utxo_address := utxo_address utxo;
     datumHash := datumHash utxo; datum := Some d |}.

(** The task of [readFrom]: the body of its [for ... of] loop, utxo by utxo. *)
Fixpoint readFrom_task (utxos : list UTxO) : M W unit :=
  match utxos with
  | [] => ret tt
  | utxo :: rest =>
      utxo1 <- (if truthy (datumHash utxo) && negb (truthy (datum utxo))
                then
                  d <- await (AwaitDatumOf utxo) DatumLookup (datumOf lucid utxo) ;;
                  call (C.add_plutus_data (C.PlutusData_from_bytes (C.fromHex d))) ;;
                  ret (with_datum utxo d)
                else ret utxo) ;;
      call (C.add_reference_input (C.utxoToCore utxo1)) ;;
      readFrom_task rest
  end.

Definition readFrom (utxos : list UTxO) : M W unit :=
  push (readFrom_task utxos).

(** [utxo.datumHash && utxo.datum ? C.PlutusData.from_bytes(fromHex(utxo.datum))
    : undefined]. *)
Definition input_datum (utxo : UTxO) : option C.PlutusData :=
  if truthy (datumHash utxo) && truthy (datum utxo)
  then Some (C.PlutusData_from_bytes (C.fromHex (the (datum utxo))))
  else None.

Fixpoint collectFrom_task (utxos : list UTxO) (redeemer : option Redeemer) : M W unit :=
  match utxos with
  | [] => ret tt
  | utxo :: rest =>
      utxo1 <- (if truthy (datumHash utxo) && negb (truthy (datum utxo))
                then
                  d <- await (AwaitDatumOf utxo) DatumLookup (datumOf lucid utxo) ;;
                  ret (with_datum utxo d)
                else ret utxo) ;;
      call (C.add_input (C.utxoToCore utxo1)
              (plutus_witness redeemer (input_datum utxo1))) ;;
      collectFrom_task rest redeemer
  end.

Definition collectFrom (utxos : list UTxO) (redeemer : option Redeemer) : M W unit :=
  push (collectFrom_task utxos redeemer).

(** [assets[unit]]. *)
Definition assets_get (assets : Assets) (unit : Unit) : option Z :=
  match find (fun entry => fst entry =? unit) assets with
  | Some entry => Some (snd entry)
  | None => None
  end.

(** The [units.forEach] of [mintAssets]: the first unit of another policy
    throws; otherwise every unit is inserted in turn. *)
Fixpoint mint_forEach (policyId : string) (assets : Assets) (units : list Unit)
  (mintAssets : C.MintAssets) : Outcome C.MintAssets :=
  match units with
  | [] => Ok mintAssets
  | unit :: rest =>
      if negb (slice_to 56 unit =? policyId) then Throw MixedPolicyError
      else
        match assets_get assets unit with
        | None => Throw TypeError
        | Some quantity =>
            mint_forEach policyId assets rest
              (mintAssets ++ [(C.AssetName_new (C.fromHex (slice_from 56 unit)),
                               C.Int_from_str quantity)])
        end
  end.

Definition mintAssets (assets : Assets) (redeemer : option Redeemer) : M W unit :=
  let units := map fst assets in
  match units with
  | [] => throw TypeError                     (* units[0].slice on undefined *)
  | unit0 :: _ =>
      let policyId := slice_to 56 unit0 in
      match mint_forEach policyId assets units [] with
      | Throw x => throw x
      | Ok minted =>
          call (C.add_mint (C.ScriptHash_from_bytes (C.fromHex policyId)) minted
                  (plutus_witness redeemer None))
      end
  end.

Definition payToAddress (address : Address) (assets : Assets) : M W unit :=
  call (C.add_output
          (C.TransactionOutput_new (C.Address_from_bech32 address) (C.assetsToValue assets))).

(** [if (typeof outputData === "string") outputData = { asHash: outputData }]. *)
Definition as_output_data (outputData : DatumOrOutputData) : OutputData :=
  match outputData with
  | ofDatum d => {| asHash := Some d; inline := None; scriptRef := None |}
  | ofOutputData o => o
  end.

Definition script_ref (s : Script) : C.ScriptRef :=
  match script_type s with
  | Native =>
      C.ScriptRef_new (C.new_native (C.NativeScript_from_bytes (C.fromHex (script s))))
  | PlutusV1 =>
      C.ScriptRef_new (C.new_plutus_v1 (C.PlutusScript_from_bytes (C.fromHex (script s))))
  | PlutusV2 =>
      C.ScriptRef_new (C.new_plutus_v2 (C.PlutusScript_from_bytes (C.fromHex (script s))))
  end.

Definition payToAddressWithData (address : Address) (outputData : DatumOrOutputData)
  (assets : Assets) : M W unit :=
  let outputData := as_output_data outputData in
  if truthy (asHash outputData) && truthy (inline outputData)
  then throw ConflictingDatumError
  else
    let output :=
      C.TransactionOutput_new (C.Address_from_bech32 address) (C.assetsToValue assets) in
    output <-
      (if truthy (asHash outputData) then
         let plutusData := C.PlutusData_from_bytes (C.fromHex (the (asHash outputData))) in
         call (C.add_plutus_data plutusData) ;;
         ret (C.set_datum (C.new_data_hash (C.hash_plutus_data plutusData)) output)
       else if truthy (inline outputData) then
         let plutusData := C.PlutusData_from_bytes (C.fromHex (the (inline outputData))) in
         ret (C.set_datum (C.new_data (C.Data_new plutusData)) output)
       else ret output) ;;
    let output :=
      match scriptRef outputData with
      | Some s => C.set_script_ref (script_ref s) output
      | None => output
      end in
    call (C.add_output output).

Definition payToContract (address : Address) (outputData : DatumOrOutputData)
  (assets : Assets) : M W unit :=
  let outputData := as_output_data outputData in
  if negb (truthy (asHash outputData) || truthy (inline outputData))
  then throw UnspendableOutputError
  else payToAddressWithData address (ofOutputData outputData) assets.

(** [addressDetails.stakeCredential.type === "Key" ? C.StakeCredential.from_keyhash(...)
    : C.StakeCredential.from_scripthash(...)]. *)
Definition stake_credential (c : Credential) : C.StakeCredential :=
  match cred_type c with
  | Key => C.from_keyhash (C.Ed25519KeyHash_from_bytes (C.fromHex (hash c)))
  | ScriptCredential => C.from_scripthash (C.ScriptHash_from_bytes (C.fromHex (hash c)))
  end.

Definition is_Reward (t : AddressType) : bool :=
  match t with
  | Reward => true
  | _ => false
  end.

(** The check shared by the three stake certificates: the address details
    with the stake credential the check found. *)
Definition reward_credential (rewardAddress : RewardAddress) : M W Credential :=
  addressDetails <- ask Resolver (getAddressDetails lucid rewardAddress) ;;
  if negb (is_Reward (address_type addressDetails))
     || negb (is_set (stakeCredential addressDetails))
  then throw InvalidAddress
  else
    match stakeCredential addressDetails with
    | Some c => ret c
    | None => throw TypeError
    end.

Definition delegateTo (rewardAddress : RewardAddress) (poolId : PoolId)
  (redeemer : option Redeemer) : M W unit :=
  c <- reward_credential rewardAddress ;;
  call (C.add_certificate
          (C.new_stake_delegation (stake_credential c) (C.Ed25519KeyHash_from_bech32 poolId))
          (plutus_witness redeemer None)).

Definition registerStake (rewardAddress : RewardAddress) : M W unit :=
  c <- reward_credential rewardAddress ;;
  call (C.add_certificate (C.new_stake_registration (stake_credential c)) None).

Definition deregisterStake (rewardAddress : RewardAddress) (redeemer : option Redeemer)
  : M W unit :=
  c <- reward_credential rewardAddress ;;
  call (C.add_certificate (C.new_stake_deregistration (stake_credential c))
          (plutus_witness redeemer None)).

(** [withdraw] asks nobody about the kind of the address: the result of
    [C.RewardAddress.from_address], [undefined] included, goes to
    [add_withdrawal], and what happens to [undefined] there is the binding's
    business. *)
Definition withdraw (rewardAddress : RewardAddress) (amount : Lovelace)
  (redeemer : option Redeemer) : M W unit :=
  let reward :=
    RewardAddress_from_address (C.Address_from_bech32 rewardAddress) in
  if is_set reward || takes_undefined
  then call (C.add_withdrawal reward (C.BigNum_from_str amount)
               (plutus_witness redeemer None))
  else throw (Rejected Engine).

(** The [owners.forEach] of [createPoolRegistration]. *)
Fixpoint owners_forEach (owners : list RewardAddress) (poolOwners : list C.Ed25519KeyHash)
  : M W (list C.Ed25519KeyHash) :=
  match owners with
  | [] => ret poolOwners
  | owner :: rest =>
      details <- ask Resolver (getAddressDetails lucid owner) ;;
      match stakeCredential details with
      | Some c =>
          match cred_type c with
          | Key => owners_forEach rest (poolOwners ++ [C.Ed25519KeyHash_from_hex (hash c)])
          | ScriptCredential => throw UnsupportedCredentialType
          end
      | None => throw UnsupportedCredentialType
      end
  end.

(** One round of the [relays.forEach] switch. *)
Definition relay_of (relay : Relay) : C.Relay :=
  match relay_type relay with
  | SingleHostIp =>
      let v4 :=
        if truthy (ipV4 relay)
        then Some (C.Ipv4_new (map C.parseInt (split "." (the (ipV4 relay)))))
        else None in
      let v6 :=
        if truthy (ipV6 relay)
        then Some (C.Ipv6_new (C.fromHex (remove_all ":" (the (ipV6 relay)))))
        else None in
      C.new_single_host_addr (port relay) v4 v6
  | SingleHostDomainName => C.new_single_host_name (port relay) (domainName relay)
  | MultiHost => C.new_multi_host_name (domainName relay)
  end.

Definition createPoolRegistration (poolParams : PoolParams) : M W C.PoolRegistration :=
  poolOwners <- owners_forEach (owners poolParams) [] ;;
  metadata <-
    (if truthy (metadataUrl poolParams)
     then
       body <- await (AwaitFetch (the (metadataUrl poolParams))) Fetcher
                 (fetch (the (metadataUrl poolParams))) ;;
       ret (Some body)
     else ret None) ;;
  let metadataHash := option_map C.hash_blake2b256 metadata in
  let relays := map relay_of (relays poolParams) in
  ret (C.PoolRegistration_new
         (C.PoolParams_new
            (C.Ed25519KeyHash_from_bech32 (poolId poolParams))
            (vrfKeyHash poolParams)
            (C.BigNum_from_str (pledge poolParams))
            (C.BigNum_from_str (cost poolParams))
            (margin poolParams)
            (RewardAddress_from_address (C.Address_from_bech32 (rewardAddress poolParams)))
            poolOwners
            relays
            (option_map (C.PoolMetadata_new (the (metadataUrl poolParams))) metadataHash))).

Definition registerPool (poolParams : PoolParams) : M W unit :=
  push (poolRegistration <- createPoolRegistration poolParams ;;
        call (C.add_certificate (C.new_pool_registration poolRegistration) None)).

Definition updatePool (poolParams : PoolParams) : M W unit :=
  push (poolRegistration <- createPoolRegistration poolParams ;;
        call (C.add_certificate
                (C.new_pool_registration (C.set_is_update true poolRegistration)) None)).


Definition addSignerKey (keyHash : PaymentKeyHash) : M W unit :=
  call (C.add_required_signer (C.Ed25519KeyHash_from_bytes (C.fromHex keyHash))).

Definition addSigner (address : Address) : M W unit :=
  addressDetails <- ask Resolver (getAddressDetails lucid address) ;;
  if negb (is_set (paymentCredential addressDetails))
     && negb (is_set (stakeCredential addressDetails))
  then throw (Error "Not a valid address.")
  else
    let credential :=
      if is_Reward (address_type addressDetails)
      then stakeCredential addressDetails
      else paymentCredential addressDetails in
    match credential with
    | None => throw TypeError
    | Some c =>
        match cred_type c with
        | ScriptCredential => throw (Error "Only key hashes are allowed as signers.")
        | Key => addSignerKey (hash c)
        end
    end.



(** The four [attach...] methods share [attachScript]; with the three script
    types of the declaration, its final [throw] is never reached. *)
Definition attachScript (s : Script) : M W unit :=
  match script_type s with
  | Native => call (C.add_native_script (C.NativeScript_from_bytes (C.fromHex (script s))))
  | PlutusV1 => call (C.add_plutus_script (C.PlutusScript_from_bytes (C.fromHex (script s))))
  | PlutusV2 => call (C.add_plutus_v2_script (C.PlutusScript_from_bytes (C.fromHex (script s))))
  end.

Definition attachSpendingValidator := attachScript.
Definition attachMintingPolicy := attachScript.
Definition attachCertificateValidator := attachScript.
Definition attachWithdrawalValidator := attachScript.

(** [if (condition) this.tasks.push(() => callback(this))]. *)
Definition applyIf (condition : bool) (callback : M W unit) : M W unit :=
  if condition then push callback else ret tt.

(** ** The builder object and [complete] *)

(** The object: [txBuilder] and what the closures see in [env], the private
    array [tasks], and a counter of task executions that no method can
    reach: the positions of the tasks started so far, oldest first. *)
Record Tx := {
  env : Env W;
  tasks : list (Task W);
  started : list nat
}.

(** [new Tx(lucid)]. *)
Definition Tx_new (w : W) : Tx :=
  {| env := {| txBuilder := []; events := []; user := w |};
     tasks := [];
     started := [] |}.

(** A method called on the object: what it pushed lands at the end of
    [this.tasks]. *)
Definition invoke {A} (m : M W A) (tx : Tx) : Tx * Outcome A :=
  match m (env tx) with
  | (e, pushed, r) =>
      ({| env := e; tasks := tasks tx ++ pushed; started := started tx |}, r)
  end.

(** The start of the task at position [i]. *)
Definition start (i : nat) (tx : Tx) : Tx :=
  {| env := env tx; tasks := tasks tx; started := started tx ++ [i] |}.

(** [for (const task of this.tasks) await task()], from position [i].  The
    array iterator reads the array as it is when each step begins, so a task
    pushed while the loop runs is reached later in the same loop.  [None]
    when the fuel is spent before the end of the array. *)
Fixpoint drain (fuel : nat) (i : nat) (tx : Tx) : option (Tx * Outcome unit) :=
  match nth_error (tasks tx) i with
  | None => Some (tx, Ok tt)
  | Some task =>
      match fuel with
      | O => None
      | S fuel' =>
          match invoke (run task) (start i tx) with
          | (tx1, Ok _) => drain fuel' (S i) tx1
          | (tx1, Throw x) => Some (tx1, Throw x)
          end
      end
  end.

Definition options_asHash (options : option CompleteOptions) : option Datum :=
  match options with
  | Some o => match options_datum o with Some d => change_asHash d | None => None end
  | None => None
  end.

Definition options_inline (options : option CompleteOptions) : option Datum :=
  match options with
  | Some o => match options_datum o with Some d => change_inline d | None => None end
  | None => None
  end.

Definition options_changeAddress (options : option CompleteOptions) : option Address :=
  match options with
  | Some o => changeAddress o
  | None => None
  end.

Definition options_coinSelection (options : option CompleteOptions) : option bool :=
  match options with
  | Some o => coinSelection o
  | None => None
  end.

(** [options?.coinSelection || options?.coinSelection === undefined]. *)
Definition selects_coins (options : option CompleteOptions) : bool :=
  match options_coinSelection options with
  | Some b => b
  | None => false
  end
  || negb (is_set (options_coinSelection options)).

(** [this.txBuilder.construct(utxos, changeAddress)]. *)
Definition construct (utxos : C.TransactionUnspentOutputs) (change : C.Address)
  : M W C.Transaction :=
  fun e =>
    ({| txBuilder := txBuilder e ++ [C.construct utxos change];
        events := events e; user := user e |},
     [], Ok (C.Transaction_of (txBuilder e))).

(** [complete] after the loop over the tasks. *)
Definition finalize (options : option CompleteOptions) : M W TxComplete :=
  utxos <- await AwaitGetUtxosCore Wallet (getUtxosCore lucid) ;;
  address <-
    (if truthy (options_changeAddress options)
     then ret (the (options_changeAddress options))
     else await AwaitWalletAddress Wallet (wallet_address lucid)) ;;
  let changeAddress := C.Address_from_bech32 address in
  (if selects_coins options
   then call (C.add_inputs_from utxos changeAddress)
   else ret tt) ;;
  call (C.balance changeAddress
          (if truthy (options_asHash options)
           then Some (C.new_data_hash
                        (C.hash_plutus_data
                           (C.PlutusData_from_bytes (C.fromHex (the (options_asHash options))))))
           else if truthy (options_inline options)
           then Some (C.new_data
                        (C.Data_new
                           (C.PlutusData_from_bytes (C.fromHex (the (options_inline options))))))
           else None)) ;;
  (if truthy (options_asHash options)
   then call (C.add_plutus_data
                (C.PlutusData_from_bytes (C.fromHex (the (options_asHash options)))))
   else ret tt) ;;
  transaction <- construct utxos changeAddress ;;
  ret {| txComplete_lucid := lucid; txComplete := transaction |}.

Definition complete (fuel : nat) (options : option CompleteOptions) (tx : Tx)
  : option (Tx * Outcome TxComplete) :=
  if truthy (options_asHash options) && truthy (options_inline options)
  then Some (tx, Throw ConflictingDatumError)
  else
    match drain fuel 0 tx with
    | None => None
    | Some (tx1, Throw x) => Some (tx1, Throw x)
    | Some (tx1, Ok _) => Some (invoke (finalize options) tx1)
    end.

(** The state after one more call on the builder. *)
Definition called (c : C.Call) (e : Env W) : Env W :=
  {| txBuilder := txBuilder e ++ [c]; events := events e; user := user e |}.

Definition with_env (e : Env W) (tx : Tx) : Tx :=
  {| env := e; tasks := tasks tx; started := started tx |}.

End Methods.

Arguments Tx : clear implicits.

(** ** Recording callbacks *)

(** A callback that awaits a timer of [ms] milliseconds and then records [n]
    in the log that the callbacks share. *)
Definition timer {W : Type} (ms : nat) : M W unit := emit (AwaitTimer ms).

Definition record (n : nat) : M (list nat) unit :=
  fun e =>
    ({| txBuilder := txBuilder e; events := events e; user := user e ++ [n] |},
     [], Ok tt).

Definition recorder (n ms : nat) : M (list nat) unit :=
  (timer ms ;; record n)%tx.

(** [tx.applyIf(true, T_n).applyIf(true, T_n+1)...], one recorder for each
    latency of the list. *)
Fixpoint enqueue_recorders (n : nat) (latencies : list nat) : M (list nat) unit :=
  match latencies with
  | [] => ret tt
  | ms :: rest => (applyIf true (recorder n ms) ;; enqueue_recorders (S n) rest)%tx
  end.

Fixpoint recorder_tasks (n : nat) (latencies : list nat) : list (Task (list nat)) :=
  match latencies with
  | [] => []
  | ms :: rest => mkTask (recorder n ms) :: recorder_tasks (S n) rest
  end.

(** ** Sample collaborators and inputs *)

Definition key_credential : Credential :=
  {| cred_type := Key;
     hash := "a1b2c3d4e5f6a1b2c3d4e5f6a1b2c3d4e5f6a1b2c3d4e5f6a1b2c3d4" |}.

Definition script_credential : Credential :=
  {| cred_type := ScriptCredential;
     hash := "0f0e0d0c0b0a0f0e0d0c0b0a0f0e0d0c0b0a0f0e0d0c0b0a0f0e0d0c" |}.

Definition stake_key_address : RewardAddress := "stake_test1_key".
Definition stake_script_address : RewardAddress := "stake_test1_script".
Definition base_address : Address := "addr_test1_base".
Definition base_address_script_stake : Address := "addr_test1_base_script_stake".

(** A resolver that knows four addresses. *)
Definition sample_getAddressDetails (a : string) : option AddressDetails :=
  if a =? stake_key_address then
    Some {| address_type := Reward; paymentCredential := None;
            stakeCredential := Some key_credential |}
  else if a =? stake_script_address then
    Some {| address_type := Reward; paymentCredential := None;
            stakeCredential := Some script_credential |}
  else if a =? base_address then
    Some {| address_type := Base; paymentCredential := Some key_credential;
            stakeCredential := Some key_credential |}
  else if a =? base_address_script_stake then
    Some {| address_type := Base; paymentCredential := Some key_credential;
            stakeCredential := Some script_credential |}
  else None.

Definition sample_is_reward (a : C.Address) : bool :=
  match a with
  | C.Address_from_bech32 s => (s =? stake_key_address) || (s =? stake_script_address)
  end.

Definition sample_lucid : Lucid :=
  {| getAddressDetails := sample_getAddressDetails;
     unixTimeToSlot := fun t => (t / 1000)%Z;
     datumOf := fun _ => None;
     getUtxosCore := Some [];
     wallet_address := Some base_address |}.

Definition sample_fetch (url : string) : option string := None.

Definition policyA : string := "aaaaaaaaaaaaaaaaaaaaaaaaaaaaaaaaaaaaaaaaaaaaaaaaaaaaaaaa".
Definition policyB : string := "bbbbbbbbbbbbbbbbbbbbbbbbbbbbbbbbbbbbbbbbbbbbbbbbbbbbbbbb".

Definition mixed_assets : Assets :=
  [((policyA ++ "746f6b656e31")%string, 10%Z); ((policyB ++ "746f6b656e32")%string, 5%Z)].

Definition single_policy_assets : Assets :=
  [((policyA ++ "746f6b656e31")%string, 10%Z); ((policyA ++ "746f6b656e32")%string, 5%Z);
   (policyA, 1%Z)].

Definition one_recorder : Tx (list nat) :=
  fst (invoke (applyIf true (recorder 1 0)) (Tx_new [])).

(** The same builder after one call of [complete] without options. *)
Definition completed_once : Tx (list nat) :=
  Eval vm_compute in
    match complete sample_lucid 1 None one_recorder with
    | Some (tx1, _) => tx1
    | None => one_recorder
    end.

Definition both_datums : option CompleteOptions :=
  Some {| changeAddress := None;
          options_datum := Some {| change_asHash := Some "deadbeef";
                                   change_inline := Some "deadbeef" |};
          coinSelection := None |}.

Definition empty_asHash : option CompleteOptions :=
  Some {| changeAddress := None;
          options_datum := Some {| change_asHash := Some "";
                                   change_inline := Some "deadbeef" |};
          coinSelection := None |}.

Definition no_coin_selection : option CompleteOptions :=
  Some {| changeAddress := None; options_datum := None; coinSelection := Some false |}.

Definition sample_pool : PoolParams :=
  {| poolId := "pool1xyz";
     vrfKeyHash := "c0ffee";
     pledge := 100000000%Z;
     cost := 340000000%Z;
     margin := (1%Z, 40%Z);
     rewardAddress := stake_key_address;
     owners := [stake_key_address; stake_script_address];
     relays := [];
     metadataUrl := None |}.

(** ** Notions used to state the properties of the methods *)

(** [e1] continues [e]: the builder has received further calls and further
    collaborators were awaited, nothing was taken back, and the state of the
    callbacks is the same. *)
Definition continues {W : Type} (e e1 : Env W) : Prop :=
  (exists calls, txBuilder e1 = txBuilder e ++ calls)
  /\ (exists awaited, events e1 = events e ++ awaited)
  /\ user e1 = user e.


(** A method body that only defers: the object is untouched but for one
    task more on its queue. *)
Definition deferring {W : Type} (m : M W unit) : Prop :=
  forall e, exists task, m e = (e, [task], Ok tt).

(** A task that pushes nothing and whose state continues the one it found,
    whether it throws or not. *)
Definition tame {W : Type} (t : Task W) : Prop :=
  forall e, continues e (fst (fst (run t e))) /\ snd (fst (run t e)) = [].

(** A method body or task body whose state continues the one it found,
    whether it throws or not, and that pushes no task. *)
Definition quiet {W A : Type} (m : M W A) : Prop :=
  forall e, continues e (fst (fst (m e))) /\ snd (fst (m e)) = [].

(** A builder holding two utxos to read, the second of which needs its datum
    looked up. *)
Definition utxo_plain : UTxO :=
  {| txHash := "11aa"; outputIndex := 0; utxo_assets := [("lovelace", 3000000%Z)];
     utxo_address := "addr_test1_base"; datumHash := None; datum := None |}.

Definition utxo_hashed : UTxO :=
  {| txHash := "22bb"; outputIndex := 1; utxo_assets := [("lovelace", 4000000%Z)];
     utxo_address := "addr_test1_script"; datumHash := Some "9e1199a9"; datum := None |}.

Definition utxo_with_datum : UTxO :=
  {| txHash := "33cc"; outputIndex := 2; utxo_assets := [("lovelace", 5000000%Z)];
     utxo_address := "addr_test1_script"; datumHash := Some "9e1199a9";
     datum := Some "d87980" |}.

(** A provider that knows the datum of every utxo. *)
Definition lucid_with_datums : Lucid :=
  {| getAddressDetails := sample_getAddressDetails;
     unixTimeToSlot := fun t => (t / 1000)%Z;
     datumOf := fun _ => Some "d87980";
     getUtxosCore := Some [C.utxoToCore utxo_plain];
     wallet_address := Some base_address |}.

(** The test of the loops of [readFrom] and [collectFrom]:
    [utxo.datumHash && !utxo.datum]. *)
Definition needs_datum (utxo : UTxO) : bool :=
  truthy (datumHash utxo) && negb (truthy (datum utxo)).

(** The utxo as the loops hand it to the builder: with the datum that was
    looked up, when one was. *)
Definition resolved (lucid : Lucid) (utxo : UTxO) : UTxO :=
  if needs_datum utxo
  then match datumOf lucid utxo with
       | Some d => with_datum utxo d
       | None => utxo
       end
  else utxo.

(** What one round of the loop of [readFrom] calls on the builder. *)
Definition reference_calls (lucid : Lucid) (utxo : UTxO) : list C.Call :=
  (if needs_datum utxo
   then match datumOf lucid utxo with
        | Some d => [C.add_plutus_data (C.PlutusData_from_bytes (C.fromHex d))]
        | None => []
        end
   else [])
  ++ [C.add_reference_input (C.utxoToCore (resolved lucid utxo))].

(** The reference inputs, the inputs and the witness data among some calls,
    oldest first. *)
Definition reference_inputs (calls : list C.Call) : list C.TransactionUnspentOutput :=
  flat_map (fun c => match c with C.add_reference_input u => [u] | _ => [] end) calls.

Definition inputs (calls : list C.Call)
  : list (C.TransactionUnspentOutput * option C.ScriptWitness) :=
  flat_map (fun c => match c with C.add_input u w => [(u, w)] | _ => [] end) calls.

Definition plutus_data (calls : list C.Call) : list C.PlutusData :=
  flat_map (fun c => match c with C.add_plutus_data d => [d] | _ => [] end) calls.

(** A provider that knows no datum. *)
Definition lucid_without_datums : Lucid :=
  {| getAddressDetails := sample_getAddressDetails;
     unixTimeToSlot := fun t => (t / 1000)%Z;
     datumOf := fun _ => None;
     getUtxosCore := Some [C.utxoToCore utxo_plain];
     wallet_address := Some base_address |}.

(** The key hash under which an owner enters the pool parameters, when the
    owner resolves to a key-hash stake credential. *)
Definition owner_key (lucid : Lucid) (owner : RewardAddress) : option C.Ed25519KeyHash :=
  match getAddressDetails lucid owner with
  | Some d =>
      match stakeCredential d with
      | Some c =>
          match cred_type c with
          | Key => Some (C.Ed25519KeyHash_from_hex (hash c))
          | ScriptCredential => None
          end
      | None => None
      end
  | None => None
  end.

(** [parts.join(sep)]. *)
Fixpoint join (sep : string) (parts : list string) : string :=
  match parts with
  | [] => ""
  | [p] => p
  | p :: rest => p ++ sep ++ join sep rest
  end.

(** Whether a character occurs in a string. *)
Fixpoint occurs (c : ascii) (s : string) : bool :=
  match s with
  | EmptyString => false
  | String d rest => Ascii.eqb d c || occurs c rest
  end.

(** The credential [addSigner] signs with:
    [type === "Reward" ? stakeCredential : paymentCredential]. *)
Definition signing_credential (d : AddressDetails) : option Credential :=
  if is_Reward (address_type d) then stakeCredential d else paymentCredential d.

Definition enterprise_address : Address := "addr_test1_enterprise".

(** A resolver that also knows an enterprise address, which has no stake
    credential. *)
Definition lucid_with_enterprise : Lucid :=
  {| getAddressDetails := fun a =>
       if a =? enterprise_address
       then Some {| address_type := Enterprise; paymentCredential := Some key_credential;
                    stakeCredential := None |}
       else sample_getAddressDetails a;
     unixTimeToSlot := fun t => (t / 1000)%Z;
     datumOf := fun _ => None;
     getUtxosCore := Some [];
     wallet_address := Some base_address |}.

Definition pool_of_keys : PoolParams :=
  {| poolId := "pool1xyz";
     vrfKeyHash := "c0ffee";
     pledge := 100000000%Z;
     cost := 340000000%Z;
     margin := (1%Z, 40%Z);
     rewardAddress := stake_key_address;
     owners := [stake_key_address; base_address];
     relays := [{| relay_type := SingleHostIp; ipV4 := Some "192.168.0.1"; ipV6 := None;
                   port := Some 3001; domainName := None |};
                {| relay_type := MultiHost; ipV4 := None; ipV6 := None;
                   port := None; domainName := Some "relays.example.org" |}];
     metadataUrl := Some "https://example.org/pool.json" |}.

Definition fetch_pool_json (url : string) : option string :=
  if url =? "https://example.org/pool.json" then Some "{}" else None.

Definition pool_with_enterprise_owner : PoolParams :=
  {| poolId := "pool1xyz";
     vrfKeyHash := "c0ffee";
     pledge := 100000000%Z;
     cost := 340000000%Z;
     margin := (1%Z, 40%Z);
     rewardAddress := stake_key_address;
     owners := [stake_key_address; enterprise_address; stake_script_address];
     relays := [];
     metadataUrl := Some "https://example.org/pool.json" |}.

(** Whether a call made after the loop of [complete] names [a] as the change
    address, for the calls that name one. *)
Definition names_change (a : C.Address) (c : C.Call) : Prop :=
  match c with
  | C.add_inputs_from _ b => b = a
  | C.balance b _ => b = a
  | C.construct _ b => b = a
  | C.add_plutus_data _ => True
  | _ => False
  end.

(** The unit of an asset and its entry in a mint directive, for an asset
    given by its name and quantity under a policy. *)
Definition unit_of (policyId : string) (named : string * Z) : Unit * Z :=
  ((policyId ++ fst named)%string, snd named).

Definition minted_of (named : string * Z) : C.AssetName * C.Int :=
  (C.AssetName_new (C.fromHex (fst named)), C.Int_from_str (snd named)).

(** A wallet that cannot tell its address. *)
Definition lucid_without_address : Lucid :=
  {| getAddressDetails := sample_getAddressDetails;
     unixTimeToSlot := fun t => (t / 1000)%Z;
     datumOf := fun _ => None;
     getUtxosCore := Some [C.utxoToCore utxo_plain];
     wallet_address := None |}.

Definition change_to_enterprise : option CompleteOptions :=
  Some {| changeAddress := Some enterprise_address; options_datum := None;
          coinSelection := None |}.

Definition change_with_hash : option CompleteOptions :=
  Some {| changeAddress := None;
          options_datum := Some {| change_asHash := Some "d87980"; change_inline := None |};
          coinSelection := Some false |}.

Definition named_tokens : list (string * Z) :=
  [("746f6b656e31", 10%Z); ("746f6b656e32", 5%Z); ("", 1%Z)].

Definition assets_of_A : Assets := [((policyA ++ "aa")%string, 1%Z)].
Definition assets_of_B : Assets := [((policyB ++ "bb")%string, 2%Z)].

(** ** Properties of the synchronous methods *)

Section SyncMethods.

Context {W : Type}.
Implicit Types (tx : Tx W) (e : Env W).

Lemma invoke_sync {A} (m : M W A) tx e1 (r : Outcome A) :
  m (env tx) = (e1, [], r) -> invoke m tx = (with_env e1 tx, r).
Proof.
  intros H. unfold invoke, with_env. rewrite H, app_nil_r. reflexivity.
Qed.

Lemma with_env_same tx : with_env (env tx) tx = tx.
Proof. destruct tx; reflexivity. Qed.

Lemma assets_get_key (assets : Assets) (u : Unit) :
  In u (map fst assets) -> exists q, assets_get assets u = Some q.
Proof.
  unfold assets_get. induction assets as [|[k q] rest IH]; simpl; intros H.
  - contradiction.
  - destruct (k =? u) eqn:E.
    + eexists; reflexivity.
    + destruct H as [H|H].
      * subst k. rewrite String.eqb_refl in E. discriminate.
      * apply IH, H.
Qed.

Lemma mint_forEach_same (policyId : string) (assets : Assets) (units : list Unit) :
  (forall u, In u units -> In u (map fst assets)) ->
  (forall u, In u units -> slice_to 56 u = policyId) ->
  forall acc, exists more,
    mint_forEach policyId assets units acc = Ok (acc ++ more)
    /\ List.length more = List.length units.
Proof.
  induction units as [|u rest IH]; intros Hin Hsame acc; simpl.
  - exists []. rewrite app_nil_r. auto.
  - rewrite (Hsame u (or_introl eq_refl)), String.eqb_refl. simpl.
    destruct (assets_get_key assets u (Hin u (or_introl eq_refl))) as [q Hq].
    rewrite Hq.
    destruct (IH (fun v Hv => Hin v (or_intror Hv)) (fun v Hv => Hsame v (or_intror Hv))
                (acc ++ [(C.AssetName_new (C.fromHex (slice_from 56 u)), C.Int_from_str q)]))
      as [more [Hmore Hlen]].
    eexists. rewrite Hmore, <- app_assoc. split; [reflexivity|]. simpl. now rewrite Hlen.
Qed.

Lemma mint_forEach_mixed (policyId : string) (assets : Assets) (units : list Unit) :
  (forall u, In u units -> In u (map fst assets)) ->
  (exists u, In u units /\ slice_to 56 u <> policyId) ->
  forall acc, mint_forEach policyId assets units acc = Throw MixedPolicyError.
Proof.
  induction units as [|u rest IH]; intros Hin [v [Hv Hne]] acc; simpl.
  - contradiction.
  - destruct (slice_to 56 u =? policyId) eqn:E; simpl; [|reflexivity].
    apply String.eqb_eq in E.
    destruct (assets_get_key assets u (Hin u (or_introl eq_refl))) as [q Hq].
    rewrite Hq. apply IH.
    + intros w Hw. apply Hin. now right.
    + exists v. split; [|exact Hne]. destruct Hv as [Hv|Hv]; [|exact Hv].
      subst v. contradiction.
Qed.

(** C9: [mintAssets] on an empty asset map throws where it reads the policy
    id off the first unit; nothing is registered on the builder, and the
    error is not the mixed-policy one. *)
Theorem mintAssets_empty (redeemer : option Redeemer) tx :
  invoke (mintAssets [] redeemer) tx = (tx, Throw TypeError)
  /\ @Throw unit TypeError <> Throw MixedPolicyError.
Proof.
  split.
  - rewrite (invoke_sync _ tx (env tx) (Throw TypeError)) by reflexivity.
    now rewrite with_env_same.
  - discriminate.
Qed.

(** C5: an asset map with two units of different policy-id prefixes makes
    [mintAssets] throw the mixed-policy error in the call itself, the object
    left as it was (builder, queue and task counter); a non-empty asset map
    whose units share one prefix is registered as one mint directive holding
    every asset of the map, however many there are. *)
Theorem mintAssets_policy_check (assets : Assets) (redeemer : option Redeemer) tx :
  ((exists u1 u2, In u1 (map fst assets) /\ In u2 (map fst assets)
                  /\ slice_to 56 u1 <> slice_to 56 u2) ->
   invoke (mintAssets assets redeemer) tx = (tx, Throw MixedPolicyError))
  /\
  (assets <> [] ->
   (forall u1 u2, In u1 (map fst assets) -> In u2 (map fst assets) ->
                  slice_to 56 u1 = slice_to 56 u2) ->
   exists policyId minted,
     (forall u, In u (map fst assets) -> slice_to 56 u = policyId)
     /\ List.length minted = List.length assets
     /\ invoke (mintAssets assets redeemer) tx =
        (with_env
           (called (C.add_mint (C.ScriptHash_from_bytes (C.fromHex policyId)) minted
                      (plutus_witness redeemer None)) (env tx)) tx,
         Ok tt)).
Proof.
  split.
  - intros [u1 [u2 [H1 [H2 Hne]]]].
    rewrite <- (with_env_same tx) at 2. apply invoke_sync.
    unfold mintAssets.
    destruct assets as [|[u0 q0] rest]; [contradiction|].
    cbn [map fst].
    rewrite mint_forEach_mixed; [reflexivity| auto |].
    destruct (string_dec (slice_to 56 u1) (slice_to 56 u0)) as [E1|E1].
    + exists u2. split; [exact H2|]. congruence.
    + exists u1. split; [exact H1|exact E1].
  - intros Hne Hsame.
    destruct assets as [|[u0 q0] rest]; [contradiction|].
    exists (slice_to 56 u0).
    destruct (mint_forEach_same (slice_to 56 u0) ((u0, q0) :: rest)
                (map fst ((u0, q0) :: rest))) with (acc := @nil (C.AssetName * C.Int))
      as [minted [Hm Hlen]].
    + auto.
    + intros u Hu. apply Hsame; [exact Hu|now left].
    + exists minted. split; [|split].
      * intros u Hu. apply Hsame; [exact Hu|now left].
      * now rewrite Hlen, length_map.
      * apply invoke_sync. unfold mintAssets.
        cbn [map fst] in *. rewrite Hm. reflexivity.
Qed.

End SyncMethods.

Section Outputs.

Context {W : Type}.
Implicit Types (tx : Tx W) (e : Env W).

Lemma payToContract_delegates (address : Address) (o : OutputData) (assets : Assets) :
  truthy (asHash o) || truthy (inline o) = true ->
  @payToContract W address (ofOutputData o) assets
  = payToAddressWithData address (ofOutputData o) assets.
Proof.
  intros H. unfold payToContract. cbn [as_output_data]. rewrite H. reflexivity.
Qed.

Lemma payToAddressWithData_one_datum (address : Address) (o : OutputData)
  (assets : Assets) e :
  xorb (truthy (asHash o)) (truthy (inline o)) = true ->
  exists pre output,
    @payToAddressWithData W address (ofOutputData o) assets e
    = ({| txBuilder := txBuilder e ++ pre ++ [C.add_output output];
          events := events e; user := user e |}, [], Ok tt)
    /\ C.out_address output = C.Address_from_bech32 address
    /\ C.out_amount output = C.assetsToValue assets
    /\ is_set (C.out_datum output) = true.
Proof.
  intros H. unfold payToAddressWithData. cbn [as_output_data].
  destruct (truthy (asHash o)) eqn:Ha, (truthy (inline o)) eqn:Hi;
    try discriminate; cbn [andb].
  - eexists [_], _. unfold bind, call, ret; cbn.
    rewrite <- app_assoc. split; [reflexivity|].
    destruct (scriptRef o); cbn; auto.
  - exists [].
    eexists. unfold bind, call, ret; cbn.
    split; [reflexivity|].
    destruct (scriptRef o); cbn; auto.
Qed.

(** C6, as amended: with neither [asHash] nor [inline] set, [payToContract]
    throws the unspendable-output error and leaves the object as it was;
    with at least one of them a non-empty string it is
    [payToAddressWithData] on the same arguments, which throws the
    conflicting-datum error when both are non-empty and appends the output,
    datum attached, when exactly one is. *)
Theorem payToContract_datum (address : Address) (o : OutputData) (assets : Assets) tx :
  (is_set (asHash o) = false -> is_set (inline o) = false ->
   invoke (payToContract address (ofOutputData o) assets) tx
   = (tx, Throw UnspendableOutputError))
  /\
  (truthy (asHash o) || truthy (inline o) = true ->
   @payToContract W address (ofOutputData o) assets
   = payToAddressWithData address (ofOutputData o) assets)
  /\
  (truthy (asHash o) && truthy (inline o) = true ->
   invoke (payToContract address (ofOutputData o) assets) tx
   = (tx, Throw ConflictingDatumError))
  /\
  (xorb (truthy (asHash o)) (truthy (inline o)) = true ->
   exists pre output,
     invoke (payToContract address (ofOutputData o) assets) tx
     = (with_env {| txBuilder := txBuilder (env tx) ++ pre ++ [C.add_output output];
                    events := events (env tx); user := user (env tx) |} tx,
        Ok tt)
     /\ C.out_address output = C.Address_from_bech32 address
     /\ C.out_amount output = C.assetsToValue assets
     /\ is_set (C.out_datum output) = true).
Proof.
  repeat split.
  - intros Ha Hi. rewrite <- (with_env_same tx) at 2. apply invoke_sync.
    unfold payToContract. cbn [as_output_data].
    destruct (asHash o); [discriminate|]. destruct (inline o); [discriminate|].
    reflexivity.
  - apply payToContract_delegates.
  - intros H. apply andb_prop in H. destruct H as [Ha Hi].
    rewrite payToContract_delegates by (rewrite Ha; reflexivity).
    rewrite <- (with_env_same tx) at 2. apply invoke_sync.
    unfold payToAddressWithData. cbn [as_output_data]. rewrite Ha, Hi. reflexivity.
  - intros H.
    destruct (payToAddressWithData_one_datum address o assets (env tx) H)
      as [pre [output [Hrun Hout]]].
    exists pre, output. split; [|exact Hout].
    rewrite payToContract_delegates.
    + apply invoke_sync. exact Hrun.
    + destruct (truthy (asHash o)), (truthy (inline o)); try discriminate; reflexivity.
Qed.

(** C10, as amended: a bare datum string [d] is handled by
    [payToAddressWithData] and by [payToContract] exactly as the object
    [{asHash: d}]; [payToContract] then succeeds when [d] is not the empty
    string, and throws the unspendable-output error when it is. *)
Theorem bare_datum_is_asHash (address : Address) (d : Datum) (assets : Assets) tx :
  @payToAddressWithData W address (ofDatum d) assets
  = payToAddressWithData address
      (ofOutputData {| asHash := Some d; inline := None; scriptRef := None |}) assets
  /\
  @payToContract W address (ofDatum d) assets
  = payToContract address
      (ofOutputData {| asHash := Some d; inline := None; scriptRef := None |}) assets
  /\
  (d <> "" ->
   exists e1, invoke (payToContract address (ofDatum d) assets) tx = (with_env e1 tx, Ok tt))
  /\
  (d = "" ->
   invoke (payToContract address (ofDatum d) assets) tx
   = (tx, Throw UnspendableOutputError)).
Proof.
  repeat split.
  - intros Hd.
    assert (Ht : truthy (Some d) = true).
    { unfold truthy. apply String.eqb_neq in Hd. now rewrite Hd. }
    destruct (payToAddressWithData_one_datum address
                {| asHash := Some d; inline := None; scriptRef := None |} assets (env tx))
      as [pre [output [Hrun _]]].
    { cbn [asHash inline]. rewrite Ht. reflexivity. }
    eexists. apply invoke_sync.
    unfold payToContract. cbn [as_output_data asHash inline]. rewrite Ht.
    cbn [orb negb]. exact Hrun.
  - intros ->. rewrite <- (with_env_same tx) at 2. apply invoke_sync. reflexivity.
Qed.

End Outputs.

(** C6, counterexample: with both [asHash] and [inline] set to a datum,
    [payToContract] does not succeed: it throws the conflicting-datum
    error. *)
Lemma payToContract_both_datums_throws :
  let o := {| asHash := Some "d87980"; inline := Some "d87980"; scriptRef := None |} in
  is_set (asHash o) || is_set (inline o) = true
  /\ invoke (payToContract base_address (ofOutputData o) [("lovelace", 5000000%Z)])
       (Tx_new tt)
     = (Tx_new tt, Throw ConflictingDatumError)
  /\ @Throw unit ConflictingDatumError <> Ok tt.
Proof. repeat split; discriminate. Qed.

(** C10, counterexample: the empty string is a bare datum string with which
    [payToContract] throws the unspendable-output error. *)
Lemma payToContract_empty_datum_throws :
  invoke (payToContract base_address (ofDatum "") [("lovelace", 5000000%Z)]) (Tx_new tt)
  = (Tx_new tt, Throw UnspendableOutputError).
Proof. reflexivity. Qed.

(** ** Stake certificates and withdrawals *)

Section Stake.

Context {W : Type}.
Variable lucid : Lucid.
Implicit Types (tx : Tx W) (e : Env W).

Lemma reward_credential_reward (a : RewardAddress) d c e :
  getAddressDetails lucid a = Some d ->
  address_type d = Reward -> stakeCredential d = Some c ->
  reward_credential lucid a e = (e, [], Ok c).
Proof.
  intros Hd Ht Hc. unfold reward_credential, bind, ask. rewrite Hd. cbn.
  rewrite Ht, Hc. reflexivity.
Qed.

Lemma reward_credential_other (a : RewardAddress) d e :
  getAddressDetails lucid a = Some d ->
  address_type d <> Reward ->
  reward_credential lucid a e = (e, [], Throw InvalidAddress).
Proof.
  intros Hd Ht. unfold reward_credential, bind, ask. rewrite Hd. cbn.
  destruct (address_type d); try contradiction; reflexivity.
Qed.

(** The three stake certificates on a reward address: the credential of the
    address goes into the certificate. *)
Lemma stake_certificates_reward (a : RewardAddress) d c (pool : PoolId)
  (redeemer : option Redeemer) e :
  getAddressDetails lucid a = Some d ->
  address_type d = Reward -> stakeCredential d = Some c ->
  delegateTo lucid a pool redeemer e
  = (called (C.add_certificate
               (C.new_stake_delegation (stake_credential c)
                  (C.Ed25519KeyHash_from_bech32 pool))
               (plutus_witness redeemer None)) e, [], Ok tt)
  /\ registerStake lucid a e
     = (called (C.add_certificate (C.new_stake_registration (stake_credential c)) None) e,
        [], Ok tt)
  /\ deregisterStake lucid a redeemer e
     = (called (C.add_certificate (C.new_stake_deregistration (stake_credential c))
                  (plutus_witness redeemer None)) e, [], Ok tt).
Proof.
  intros Hd Ht Hc.
  unfold delegateTo, registerStake, deregisterStake, bind.
  rewrite (reward_credential_reward a d c e Hd Ht Hc).
  repeat split.
Qed.

(** The three stake certificates on an address of another kind. *)
Lemma stake_certificates_other (a : RewardAddress) d (pool : PoolId)
  (redeemer : option Redeemer) e :
  getAddressDetails lucid a = Some d ->
  address_type d <> Reward ->
  delegateTo lucid a pool redeemer e = (e, [], Throw InvalidAddress)
  /\ registerStake lucid a e = (e, [], Throw InvalidAddress)
  /\ deregisterStake lucid a redeemer e = (e, [], Throw InvalidAddress).
Proof.
  intros Hd Ht.
  unfold delegateTo, registerStake, deregisterStake, bind.
  rewrite (reward_credential_other a d e Hd Ht).
  repeat split.
Qed.

Lemma withdraw_reward (is_reward : C.Address -> bool) (takes_undefined : bool)
  (a : RewardAddress) (amount : Lovelace) (redeemer : option Redeemer) e :
  is_reward (C.Address_from_bech32 a) = true ->
  withdraw is_reward takes_undefined a amount redeemer e
  = (called (C.add_withdrawal (Some (C.RewardAddress_of (C.Address_from_bech32 a)))
               (C.BigNum_from_str amount) (plutus_witness redeemer None)) e, [], Ok tt).
Proof.
  intros H. unfold withdraw, RewardAddress_from_address. rewrite H. reflexivity.
Qed.

(** Whatever the address, [withdraw] never throws the error of the
    reward-address check. *)
Lemma withdraw_never_InvalidAddress (is_reward : C.Address -> bool)
  (takes_undefined : bool) (a : RewardAddress) (amount : Lovelace)
  (redeemer : option Redeemer) e :
  snd (withdraw is_reward takes_undefined a amount redeemer e) <> Throw InvalidAddress.
Proof.
  unfold withdraw.
  destruct (is_set _ || takes_undefined); cbn; discriminate.
Qed.

End Stake.


(** ** The task queue *)

Section Queue.

Context {W : Type}.
Implicit Types (tx : Tx W) (e : Env W).

Lemma drain_eq (fuel i : nat) tx :
  drain fuel i tx =
  match nth_error (tasks tx) i with
  | None => Some (tx, Ok tt)
  | Some task =>
      match fuel with
      | O => None
      | S fuel' =>
          match invoke (run task) (start i tx) with
          | (tx1, Ok _) => drain fuel' (S i) tx1
          | (tx1, Throw x) => Some (tx1, Throw x)
          end
      end
  end.
Proof. destruct fuel; reflexivity. Qed.

Lemma invoke_tasks {A} (m : M W A) tx tx1 (r : Outcome A) :
  invoke m tx = (tx1, r) ->
  exists pushed, tasks tx1 = tasks tx ++ pushed /\ started tx1 = started tx.
Proof.
  unfold invoke. destruct (m (env tx)) as [[e1 pushed] r1].
  intros H. inversion H; subst. exists pushed. split; reflexivity.
Qed.

(** A drain only ever appends to the queue. *)
Lemma drain_tasks (fuel : nat) : forall i tx tx1 r,
  drain fuel i tx = Some (tx1, r) ->
  exists pushed, tasks tx1 = tasks tx ++ pushed.
Proof.
  induction fuel as [|fuel IH]; intros i tx tx1 r H; rewrite drain_eq in H;
    destruct (nth_error (tasks tx) i) as [task|] eqn:E;
    try discriminate;
    try (inversion H; subst; exists []; now rewrite app_nil_r).
  destruct (invoke (run task) (start i tx)) as [tx2 [u|x]] eqn:Ei;
    apply invoke_tasks in Ei; destruct Ei as [p1 [Hp1 _]]; cbn in Hp1.
  - apply IH in H. destruct H as [p2 Hp2].
    exists (p1 ++ p2). rewrite Hp2, Hp1. now rewrite app_assoc.
  - inversion H; subst. exists p1. exact Hp1.
Qed.

(** A drain that completes has started every task of the queue, those
    enqueued meanwhile included, once each and in the order of the queue. *)
Lemma drain_started (fuel : nat) : forall i tx tx1,
  drain fuel i tx = Some (tx1, Ok tt) ->
  started tx1 = started tx ++ seq i (List.length (tasks tx1) - i).
Proof.
  induction fuel as [|fuel IH]; intros i tx tx1 H; rewrite drain_eq in H;
    destruct (nth_error (tasks tx) i) as [task|] eqn:E; try discriminate.
  - inversion H; subst. apply nth_error_None in E.
    replace (List.length (tasks tx1) - i) with 0 by lia. cbn. now rewrite app_nil_r.
  - assert (Hi : i < List.length (tasks tx)).
    { apply nth_error_Some. rewrite E. discriminate. }
    destruct (invoke (run task) (start i tx)) as [tx2 [u|x]] eqn:Ei; [|discriminate].
    apply invoke_tasks in Ei. destruct Ei as [p1 [Hp1 Hs1]]. cbn in Hp1, Hs1.
    destruct (drain_tasks _ _ _ _ _ H) as [p2 Hp2].
    apply IH in H. rewrite H, Hs1, <- app_assoc. f_equal.
    assert (Hlen : i < List.length (tasks tx1)).
    { rewrite Hp2, Hp1, !length_app. lia. }
    replace (List.length (tasks tx1) - i) with (S (List.length (tasks tx1) - S i)) by lia.
    reflexivity.
  - inversion H; subst. apply nth_error_None in E.
    replace (List.length (tasks tx1) - i) with 0 by lia. cbn. now rewrite app_nil_r.
Qed.

Section Complete.

Variable lucid : Lucid.

(** The part of [complete] after the loop pushes no task and leaves the
    state of the callbacks alone. *)
Lemma finalize_sync (options : option CompleteOptions) e :
  exists e1 r,
    finalize lucid options e = (e1, [], r)
    /\ user e1 = user e
    /\ exists more, events e1 = events e ++ more.
Proof.
  unfold finalize, bind, await, emit, call, construct, ret, throw.
  destruct (getUtxosCore lucid); cbn;
    [destruct (truthy (options_changeAddress options)); cbn;
     [|destruct (wallet_address lucid); cbn];
     try (destruct (selects_coins options), (truthy (options_asHash options)); cbn)|];
    do 2 eexists; (split; [reflexivity|]); (split; [reflexivity|]);
    cbn; rewrite <- ?app_assoc; eexists; reflexivity.
Qed.

Lemma invoke_finalize (options : option CompleteOptions) tx :
  exists e1 r,
    invoke (finalize lucid options) tx = (with_env e1 tx, r)
    /\ user e1 = user (env tx)
    /\ exists more, events e1 = events (env tx) ++ more.
Proof.
  destruct (finalize_sync options (env tx)) as [e1 [r [H Hu]]].
  exists e1, r. split; [|exact Hu]. apply invoke_sync, H.
Qed.

Lemma complete_Ok (fuel : nat) (options : option CompleteOptions) tx tx2 c :
  complete lucid fuel options tx = Some (tx2, Ok c) ->
  exists tx1,
    drain fuel 0 tx = Some (tx1, Ok tt)
    /\ tasks tx2 = tasks tx1 /\ started tx2 = started tx1.
Proof.
  unfold complete.
  destruct (truthy (options_asHash options) && truthy (options_inline options));
    [discriminate|].
  destruct (drain fuel 0 tx) as [[tx1 [[]|x]]|]; try discriminate.
  destruct (invoke_finalize options tx1) as [e1 [r [H _]]]. rewrite H.
  intros E. inversion E; subst. exists tx1. repeat split.
Qed.

End Complete.

End Queue.

Section Recorders.

Variable lucid : Lucid.

Lemma enqueue_recorders_pushes (latencies : list nat) : forall n e,
  enqueue_recorders n latencies e = (e, recorder_tasks n latencies, Ok tt).
Proof.
  induction latencies as [|ms rest IH]; intros n e; cbn.
  - reflexivity.
  - unfold bind. cbn. rewrite IH. reflexivity.
Qed.

(** The loop over a queue that ends in recorders, from the first of them. *)
Lemma drain_recorders (latencies : list nat) : forall n pre e st fuel,
  List.length latencies <= fuel ->
  drain fuel (List.length pre)
    {| env := e; tasks := pre ++ recorder_tasks n latencies; started := st |}
  = Some ({| env := {| txBuilder := txBuilder e;
                       events := events e ++ map AwaitTimer latencies;
                       user := user e ++ seq n (List.length latencies) |};
             tasks := pre ++ recorder_tasks n latencies;
             started := st ++ seq (List.length pre) (List.length latencies) |},
          Ok tt).
Proof.
  induction latencies as [|ms rest IH]; intros n pre e st fuel Hfuel;
    rewrite drain_eq; cbn [tasks];
    rewrite nth_error_app2, Nat.sub_diag by lia; cbn [recorder_tasks nth_error].
  - cbn. rewrite !app_nil_r. destruct e; reflexivity.
  - destruct fuel as [|fuel]; [cbn in Hfuel; lia|].
    cbn [invoke run start env tasks started recorder].
    unfold bind, timer, emit, record. cbn.
    rewrite app_nil_r.
    replace (pre ++ mkTask (recorder n ms) :: recorder_tasks (S n) rest)
      with ((pre ++ [mkTask (recorder n ms)]) ++ recorder_tasks (S n) rest)
      by (now rewrite <- app_assoc).
    replace (S (List.length pre)) with (List.length (pre ++ [mkTask (recorder n ms)]))
      by (rewrite length_app; cbn; lia).
    rewrite IH by (cbn in Hfuel; lia). cbn.
    rewrite <- !app_assoc. reflexivity.
Qed.

(** C2: a loop over the tasks that completes has started every task of the
    queue once, in the order of the queue, each one after the one before it
    has finished.  For recorders T1..Tn enqueued in this order, each with a
    latency of its own, on a builder whose queue was empty: [complete]
    returns, its loop has started the n tasks once each in order, and the
    shared log has gained exactly 1, 2, ..., n, whatever the latencies. *)
Theorem complete_drains_in_order (options : option CompleteOptions)
  (latencies : list nat) (e0 : Env (list nat)) (started0 : list nat) (fuel : nat) :
  truthy (options_asHash options) && truthy (options_inline options) = false ->
  List.length latencies <= fuel ->
  (forall (tx tx1 : Tx (list nat)) (fuel1 : nat),
     drain fuel1 0 tx = Some (tx1, Ok tt) ->
     started tx1 = started tx ++ seq 0 (List.length (tasks tx1)))
  /\
  exists tx1 r,
    complete lucid fuel options
      (fst (invoke (enqueue_recorders 1 latencies)
              {| env := e0; tasks := []; started := started0 |}))
    = Some (tx1, r)
    /\ user (env tx1) = user e0 ++ seq 1 (List.length latencies)
    /\ (exists more, events (env tx1) = events e0 ++ map AwaitTimer latencies ++ more)
    /\ started tx1 = started0 ++ seq 0 (List.length latencies)
    /\ List.length (tasks tx1) = List.length latencies.
Proof.
  intros Hopt Hfuel. split.
  { intros tx tx1 fuel1 H. apply drain_started in H.
    now rewrite Nat.sub_0_r in H. }
  unfold complete. rewrite Hopt.
  unfold invoke at 1. cbn [env tasks started].
  rewrite enqueue_recorders_pushes. cbn [fst].
  pose proof (drain_recorders latencies 1 [] e0 started0 fuel Hfuel) as Hd.
  cbn [List.length app] in Hd. cbn [app]. rewrite Hd.
  match goal with
  | |- context [invoke (finalize lucid options) ?t] =>
      destruct (invoke_finalize lucid options t) as [e1 [r [Hf [Hu He]]]]
  end.
  rewrite Hf. exists (with_env e1
    {| env := {| txBuilder := txBuilder e0;
                 events := events e0 ++ map AwaitTimer latencies;
                 user := user e0 ++ seq 1 (List.length latencies) |};
       tasks := recorder_tasks 1 latencies;
       started := started0 ++ seq 0 (List.length latencies) |}), r.
  split; [reflexivity|]. cbn. split; [exact Hu|].
  split.
  { destruct He as [more He]. exists more. cbn in He. rewrite He.
    now rewrite app_assoc. }
  split; [reflexivity|].
  clear. generalize 1. induction latencies; intros; cbn; [reflexivity|].
  now rewrite IHlatencies.
Qed.

End Recorders.

(** C2, at three recorders whose latencies decrease. *)
Lemma complete_drains_in_order_witness :
  exists tx1 r,
    complete sample_lucid 3 None
      (fst (invoke (enqueue_recorders 1 [300; 20; 1]) (Tx_new [])))
    = Some (tx1, r)
    /\ user (env tx1) = [1; 2; 3]
    /\ started tx1 = [0; 1; 2]
    /\ List.length (tasks tx1) = 3.
Proof.
  destruct (complete_drains_in_order sample_lucid None [300; 20; 1]
              {| txBuilder := []; events := []; user := [] |} [] 3)
    as [_ [tx1 [r [Hc [Hu [_ [Hs Hl]]]]]]].
  - reflexivity.
  - cbn. lia.
  - exists tx1, r. auto.
Defined.

Section Finalizer.

Context {W : Type}.
Variable lucid : Lucid.
Implicit Types (tx : Tx W) (e : Env W).

(** C3, as amended: [complete] never removes a task from the queue.  After a
    first [complete] has returned, the queue holds every task it held before
    (and those enqueued meanwhile); a second [complete] that returns has
    started each task of the queue once more, from the first. *)
Theorem complete_keeps_the_queue (fuel1 fuel2 : nat)
  (options1 options2 : option CompleteOptions) tx tx1 tx2 c1 c2 :
  complete lucid fuel1 options1 tx = Some (tx1, Ok c1) ->
  complete lucid fuel2 options2 tx1 = Some (tx2, Ok c2) ->
  (exists pushed, tasks tx1 = tasks tx ++ pushed)
  /\ started tx1 = started tx ++ seq 0 (List.length (tasks tx1))
  /\ started tx2 = started tx1 ++ seq 0 (List.length (tasks tx2))
  /\ List.length (tasks tx) <= List.length (tasks tx2).
Proof.
  intros H1 H2.
  apply complete_Ok in H1. destruct H1 as [ta [Hd1 [Ht1 Hs1]]].
  apply complete_Ok in H2. destruct H2 as [tb [Hd2 [Ht2 Hs2]]].
  destruct (drain_tasks _ _ _ _ _ Hd1) as [p1 Hp1].
  destruct (drain_tasks _ _ _ _ _ Hd2) as [p2 Hp2].
  apply drain_started in Hd1. apply drain_started in Hd2.
  rewrite Nat.sub_0_r in Hd1, Hd2.
  repeat split.
  - exists p1. now rewrite Ht1.
  - now rewrite Hs1, Ht1.
  - now rewrite Hs2, Ht2.
  - rewrite Ht2, Hp2, Ht1, Hp1, !length_app. lia.
Qed.

(** C4, as amended: when the change datum holds a non-empty [asHash] and a
    non-empty [inline], [complete] throws the conflicting-datum error at
    once: the object is returned as it was, no task started, no collaborator
    awaited, no call made on the builder. *)
Theorem complete_conflicting_datum (fuel : nat) (options : option CompleteOptions) tx :
  truthy (options_asHash options) = true ->
  truthy (options_inline options) = true ->
  complete lucid fuel options tx = Some (tx, Throw ConflictingDatumError).
Proof.
  intros Ha Hi. unfold complete. rewrite Ha, Hi. reflexivity.
Qed.

(** C7: once the loop over the tasks has completed and the wallet has
    answered, [complete] returns the transaction, and what it has called on
    the builder after the loop begins with [add_inputs_from] when
    [coinSelection] is [true] and when it is absent, and without it only
    when [coinSelection] is [false]; no later call selects inputs. *)
Theorem complete_coin_selection (fuel : nat) (options : option CompleteOptions)
  tx tx1 utxos (address : Address) :
  truthy (options_asHash options) && truthy (options_inline options) = false ->
  drain fuel 0 tx = Some (tx1, Ok tt) ->
  getUtxosCore lucid = Some utxos ->
  (if truthy (options_changeAddress options)
   then Some (the (options_changeAddress options))
   else wallet_address lucid) = Some address ->
  exists tx2 c later,
    complete lucid fuel options tx = Some (tx2, Ok c)
    /\ txBuilder (env tx2)
       = txBuilder (env tx1)
         ++ match options_coinSelection options with
            | Some true => [C.add_inputs_from utxos (C.Address_from_bech32 address)]
            | None => [C.add_inputs_from utxos (C.Address_from_bech32 address)]
            | Some false => []
            end
         ++ later
    /\ Forall (fun c0 => match c0 with
                         | C.add_inputs_from _ _ => False
                         | _ => True
                         end) later.
Proof.
  intros Hopt Hdrain Hutxos Haddr. unfold complete. rewrite Hopt, Hdrain.
  unfold invoke, finalize, bind, await, emit, call, construct, ret, throw, selects_coins.
  rewrite Hutxos. cbn.
  destruct (truthy (options_changeAddress options)).
  - inversion Haddr as [Ha]. rewrite Ha. clear Haddr.
    destruct (options_coinSelection options) as [[|]|],
             (truthy (options_asHash options)); cbn;
      do 3 eexists; (split; [reflexivity|]); cbn;
      rewrite <- ?app_assoc; cbn;
      (split; [reflexivity|]); repeat constructor.
  - rewrite Haddr. cbn.
    destruct (options_coinSelection options) as [[|]|],
             (truthy (options_asHash options)); cbn;
      do 3 eexists; (split; [reflexivity|]); cbn;
      rewrite <- ?app_assoc; cbn;
      (split; [reflexivity|]); repeat constructor.
Qed.

Section Pools.

Variable is_reward : C.Address -> bool.
Variable fetch : string -> option string.

Lemma owners_forEach_script (owners : list RewardAddress) :
  (forall o, In o owners -> getAddressDetails lucid o <> None) ->
  (exists o d c, In o owners /\ getAddressDetails lucid o = Some d
                 /\ stakeCredential d = Some c /\ cred_type c = ScriptCredential) ->
  forall acc e,
    owners_forEach lucid owners acc e = (e, [], Throw UnsupportedCredentialType).
Proof.
  induction owners as [|o rest IH]; intros Hall [o1 [d1 [c1 [Hin [Hd [Hc Ht]]]]]] acc e.
  - contradiction.
  - cbn [owners_forEach]. unfold bind, ask.
    destruct (getAddressDetails lucid o) as [d|] eqn:E.
    + cbn. destruct (stakeCredential d) as [c|] eqn:Ec; [|reflexivity].
      destruct (cred_type c) eqn:Et; [|reflexivity].
      rewrite IH; [reflexivity| |].
      * intros o' Ho'. apply Hall. now right.
      * destruct Hin as [Hin|Hin].
        -- subst o1. rewrite E in Hd. inversion Hd; subst d1.
           rewrite Ec in Hc. inversion Hc; subst c1. congruence.
        -- exists o1, d1, c1. auto.
    + exfalso. apply (Hall o); [now left|exact E].
Qed.

(** C8: with a pool owner that resolves to a script-hash stake credential
    (every owner being an address the resolver knows), [registerPool]
    itself returns normally: it leaves the builder alone and only enqueues a
    task.  That task throws the key-hash-only error whenever it runs; so on a
    builder that held no other task, [complete] throws that error, and
    throws it from its loop, once the task has started. *)
Theorem registerPool_script_owner (poolParams : PoolParams)
  (options : option CompleteOptions) (fuel : nat) tx :
  (forall o, In o (owners poolParams) -> getAddressDetails lucid o <> None) ->
  (exists o d c, In o (owners poolParams) /\ getAddressDetails lucid o = Some d
                 /\ stakeCredential d = Some c /\ cred_type c = ScriptCredential) ->
  exists task,
    invoke (registerPool lucid is_reward fetch poolParams) tx
    = ({| env := env tx; tasks := tasks tx ++ [task]; started := started tx |}, Ok tt)
    /\ (forall e, run task e = (e, [], Throw UnsupportedCredentialType))
    /\ (tasks tx = [] ->
        truthy (options_asHash options) && truthy (options_inline options) = false ->
        complete lucid (S fuel) options
          (fst (invoke (registerPool lucid is_reward fetch poolParams) tx))
        = Some ({| env := env tx; tasks := [task]; started := started tx ++ [0] |},
                Throw UnsupportedCredentialType)).
Proof.
  intros Hall Hscript.
  assert (Hrun : forall e,
             (bind (createPoolRegistration lucid is_reward fetch poolParams)
                (fun poolRegistration =>
                   call (C.add_certificate (C.new_pool_registration poolRegistration) None)))
               e
             = (e, [], @Throw unit UnsupportedCredentialType)).
  { intros e. unfold bind at 1. unfold createPoolRegistration. unfold bind at 1.
    rewrite (owners_forEach_script _ Hall Hscript). reflexivity. }
  eexists. split; [|split].
  - unfold invoke, registerPool, push. reflexivity.
  - exact Hrun.
  - intros Hq Hopt. unfold complete. rewrite Hopt.
    unfold registerPool, push, invoke. rewrite Hq.
    cbn [fst app drain tasks nth_error run].
    unfold invoke. cbn [start env tasks started].
    rewrite Hrun. reflexivity.
Qed.

End Pools.

End Finalizer.

(** ** The theorems at sample inputs *)

(** C5, at a map of two policies and at a map of three assets of one. *)
Lemma mintAssets_policy_check_witness :
  invoke (mintAssets mixed_assets None) (Tx_new tt) = (Tx_new tt, Throw MixedPolicyError)
  /\ exists policyId minted,
       (forall u, In u (map fst single_policy_assets) -> slice_to 56 u = policyId)
       /\ List.length minted = List.length single_policy_assets
       /\ invoke (mintAssets single_policy_assets None) (Tx_new tt) =
          (with_env
             (called (C.add_mint (C.ScriptHash_from_bytes (C.fromHex policyId)) minted
                        (plutus_witness None None)) (env (Tx_new tt))) (Tx_new tt),
           Ok tt).
Proof.
  split.
  - apply (proj1 (mintAssets_policy_check mixed_assets None (Tx_new tt))).
    exists (policyA ++ "746f6b656e31")%string, (policyB ++ "746f6b656e32")%string.
    cbn. repeat split; auto. discriminate.
  - apply (proj2 (mintAssets_policy_check single_policy_assets None (Tx_new tt))).
    + discriminate.
    + intros u1 u2 H1 H2. cbn in H1, H2.
      destruct H1 as [<-|[<-|[<-|[]]]], H2 as [<-|[<-|[<-|[]]]]; reflexivity.
Defined.

(** C6, at an output with an inline datum only. *)
Lemma payToContract_datum_witness :
  let o := {| asHash := None; inline := Some "d87980"; scriptRef := None |} in
  xorb (truthy (asHash o)) (truthy (inline o)) = true
  /\ exists pre output,
       invoke (payToContract base_address (ofOutputData o) [("lovelace", 2000000%Z)])
         (Tx_new tt)
       = (with_env {| txBuilder := txBuilder (env (Tx_new tt)) ++ pre ++ [C.add_output output];
                      events := events (env (Tx_new tt));
                      user := user (env (Tx_new tt)) |} (Tx_new tt),
          Ok tt)
       /\ C.out_address output = C.Address_from_bech32 base_address
       /\ C.out_amount output = C.assetsToValue [("lovelace", 2000000%Z)]
       /\ is_set (C.out_datum output) = true.
Proof.
  split; [reflexivity|].
  apply (proj2 (proj2 (proj2
    (payToContract_datum base_address
       {| asHash := None; inline := Some "d87980"; scriptRef := None |}
       [("lovelace", 2000000%Z)] (Tx_new tt))))).
  reflexivity.
Defined.

(** C10, at the datum [d87980]. *)
Lemma bare_datum_is_asHash_witness :
  "d87980" <> ""
  /\ exists e1,
       invoke (payToContract base_address (ofDatum "d87980") [("lovelace", 2000000%Z)])
         (Tx_new tt)
       = (with_env e1 (Tx_new tt), Ok tt).
Proof.
  split; [discriminate|].
  apply (proj1 (proj2 (proj2
    (bare_datum_is_asHash base_address "d87980" [("lovelace", 2000000%Z)] (Tx_new tt))))).
  discriminate.
Defined.

(** C3, counterexample: one recorder, [complete] called twice.  After the
    first call the queue is not empty, and the second call runs the task
    again: two starts, two entries in the log. *)
Lemma second_complete_runs_the_task_again :
  (exists c1, complete sample_lucid 1 None one_recorder = Some (completed_once, Ok c1))
  /\ tasks completed_once <> []
  /\ started completed_once = [0]
  /\ exists tx2 c2,
       complete sample_lucid 1 None completed_once = Some (tx2, Ok c2)
       /\ started tx2 = [0; 0]
       /\ user (env tx2) = [1; 1].
Proof.
  split; [eexists; vm_compute; reflexivity|].
  split; [discriminate|].
  split; [reflexivity|].
  do 2 eexists. split; [vm_compute; reflexivity|].
  split; reflexivity.
Qed.

(** C3, as amended, at one recorder and two calls. *)
Lemma complete_keeps_the_queue_witness :
  exists c1 tx2 c2,
    complete sample_lucid 1 None one_recorder = Some (completed_once, Ok c1)
    /\ complete sample_lucid 1 None completed_once = Some (tx2, Ok c2)
    /\ ((exists pushed, tasks completed_once = tasks one_recorder ++ pushed)
        /\ started completed_once
           = started one_recorder ++ seq 0 (List.length (tasks completed_once))
        /\ started tx2 = started completed_once ++ seq 0 (List.length (tasks tx2))
        /\ List.length (tasks one_recorder) <= List.length (tasks tx2)).
Proof.
  do 3 eexists.
  split; [vm_compute; reflexivity|].
  split; [vm_compute; reflexivity|].
  eapply (complete_keeps_the_queue sample_lucid 1 1 None None one_recorder);
    vm_compute; reflexivity.
Defined.

(** C4, counterexample: a change datum that sets [asHash] to the empty
    string and [inline] to a datum.  [complete] does not throw: it runs the
    queued task, awaits the wallet and returns the transaction. *)
Lemma complete_empty_asHash_runs :
  is_set (options_asHash empty_asHash) = true
  /\ is_set (options_inline empty_asHash) = true
  /\ exists tx1 c,
       complete sample_lucid 1 empty_asHash one_recorder = Some (tx1, Ok c)
       /\ started tx1 = [0]
       /\ events (env tx1) = [AwaitTimer 0; AwaitGetUtxosCore; AwaitWalletAddress].
Proof.
  split; [reflexivity|]. split; [reflexivity|].
  do 2 eexists. split; [vm_compute; reflexivity|]. split; reflexivity.
Qed.

(** C4, as amended, at the change datum of the specification's scenario. *)
Lemma complete_conflicting_datum_witness :
  truthy (options_asHash both_datums) = true
  /\ truthy (options_inline both_datums) = true
  /\ complete sample_lucid 1 both_datums one_recorder
     = Some (one_recorder, Throw ConflictingDatumError).
Proof.
  split; [reflexivity|]. split; [reflexivity|].
  apply (complete_conflicting_datum sample_lucid 1 both_datums one_recorder);
    reflexivity.
Defined.

(** C7, at [coinSelection: false] on a fresh builder. *)
Lemma complete_coin_selection_witness :
  exists tx2 c later,
    complete sample_lucid 0 no_coin_selection (Tx_new tt) = Some (tx2, Ok c)
    /\ txBuilder (env tx2) = txBuilder (env (Tx_new tt)) ++ [] ++ later
    /\ Forall (fun c0 => match c0 with
                         | C.add_inputs_from _ _ => False
                         | _ => True
                         end) later.
Proof.
  apply (complete_coin_selection sample_lucid 0 no_coin_selection
           (Tx_new tt) (Tx_new tt) [] base_address); reflexivity.
Defined.

(** C7, the three cases side by side. *)
Example coin_selection_three_ways :
  (exists tx2 c,
     complete sample_lucid 0
       (Some {| changeAddress := None; options_datum := None; coinSelection := Some true |})
       (Tx_new tt) = Some (tx2, Ok c)
     /\ txBuilder (env tx2)
        = [C.add_inputs_from [] (C.Address_from_bech32 base_address);
           C.balance (C.Address_from_bech32 base_address) None;
           C.construct [] (C.Address_from_bech32 base_address)])
  /\ (exists tx2 c,
        complete sample_lucid 0 None (Tx_new tt) = Some (tx2, Ok c)
        /\ txBuilder (env tx2)
           = [C.add_inputs_from [] (C.Address_from_bech32 base_address);
              C.balance (C.Address_from_bech32 base_address) None;
              C.construct [] (C.Address_from_bech32 base_address)])
  /\ (exists tx2 c,
        complete sample_lucid 0 no_coin_selection (Tx_new tt) = Some (tx2, Ok c)
        /\ txBuilder (env tx2)
           = [C.balance (C.Address_from_bech32 base_address) None;
              C.construct [] (C.Address_from_bech32 base_address)]).
Proof.
  repeat split; do 2 eexists; split; reflexivity.
Qed.

(** C8, at a pool whose second owner is a script stake address. *)
Lemma registerPool_script_owner_witness :
  exists task,
    invoke (registerPool sample_lucid sample_is_reward sample_fetch sample_pool)
      (Tx_new tt)
    = ({| env := env (Tx_new tt); tasks := [task]; started := [] |}, Ok tt)
    /\ (forall e : Env unit, run task e = (e, [], Throw UnsupportedCredentialType))
    /\ complete sample_lucid 1 None
         (fst (invoke (registerPool sample_lucid sample_is_reward sample_fetch sample_pool)
                 (Tx_new tt)))
       = Some ({| env := env (Tx_new tt); tasks := [task]; started := [0] |},
               Throw UnsupportedCredentialType).
Proof.
  destruct (registerPool_script_owner sample_lucid sample_is_reward sample_fetch
              sample_pool None 0 (Tx_new tt)) as [task [Hi [Hr Hc]]].
  - intros o H. cbn in H. destruct H as [<-|[<-|[]]]; discriminate.
  - exists stake_script_address. do 2 eexists.
    split; [cbn; auto|]. split; [reflexivity|]. split; reflexivity.
  - exists task. split; [exact Hi|]. split; [exact Hr|].
    apply Hc; reflexivity.
Defined.

(** ** Further properties: what every method leaves alone *)

Ltac continues_tac :=
  unfold continues; cbn;
  repeat match goal with |- _ /\ _ => split end;
  try reflexivity;
  try (eexists; reflexivity);
  try (exists []; now rewrite app_nil_r).

Section Discipline.

Context {W : Type}.
Variable lucid : Lucid.
Variable is_reward : C.Address -> bool.
Variable fetch : string -> option string.
Variable takes_undefined : bool.
Implicit Types (tx : Tx W) (e : Env W).

Lemma continues_refl e : continues e e.
Proof.
  repeat split; try (exists []; now rewrite app_nil_r).
Qed.

Lemma continues_trans e e1 e2 : continues e e1 -> continues e1 e2 -> continues e e2.
Proof.
  intros [[c1 H1] [[a1 H2] H3]] [[c2 H4] [[a2 H5] H6]]. repeat split.
  - exists (c1 ++ c2). now rewrite H4, H1, app_assoc.
  - exists (a1 ++ a2). now rewrite H5, H2, app_assoc.
  - congruence.
Qed.










Lemma quiet_ret {A} (a : A) : quiet (@ret W A a).
Proof. intros e. split; [apply continues_refl|reflexivity]. Qed.

Lemma quiet_throw {A} (x : Thrown) : quiet (@throw W A x).
Proof. intros e. split; [apply continues_refl|reflexivity]. Qed.

Lemma quiet_call (c : C.Call) : quiet (@call W c).
Proof.
  intros e. split; [|reflexivity]. continues_tac.
Qed.

Lemma quiet_emit (ev : Event) : quiet (@emit W ev).
Proof.
  intros e. split; [|reflexivity]. continues_tac.
Qed.

Lemma quiet_bind {A B} (m : M W A) (k : A -> M W B) :
  quiet m -> (forall a, quiet (k a)) -> quiet (bind m k).
Proof.
  intros Hm Hk e. unfold bind. specialize (Hm e).
  destruct (m e) as [[e1 q1] [a|x]]; cbn in Hm; destruct Hm as [Hc Hq]; subst q1.
  - specialize (Hk a e1). destruct (k a e1) as [[e2 q2] r]. cbn in *.
    destruct Hk as [Hc2 Hq2]. subst q2. split; [|reflexivity].
    eapply continues_trans; eauto.
  - cbn. auto.
Qed.

Lemma quiet_ask {A} (who : Collaborator) (answer : option A) : quiet (@ask W A who answer).
Proof. destruct answer; [apply quiet_ret|apply quiet_throw]. Qed.

Lemma quiet_await {A} (ev : Event) (who : Collaborator) (answer : option A) :
  quiet (@await W A ev who answer).
Proof.
  apply quiet_bind; [apply quiet_emit|]. intros _.
  destruct answer; [apply quiet_ret|apply quiet_throw].
Qed.

Lemma quiet_if {A} (b : bool) (m1 m2 : M W A) : quiet m1 -> quiet m2 -> quiet (if b then m1 else m2).
Proof. destruct b; auto. Qed.

Lemma quiet_readFrom_task (utxos : list UTxO) : quiet (@readFrom_task W lucid utxos).
Proof.
  induction utxos as [|u rest IH]; cbn [readFrom_task]; [apply quiet_ret|].
  apply quiet_bind.
  - apply quiet_if; [|apply quiet_ret].
    apply quiet_bind; [apply quiet_await|]. intros d.
    apply quiet_bind; [apply quiet_call|]. intros _. apply quiet_ret.
  - intros u1. apply quiet_bind; [apply quiet_call|]. intros _. exact IH.
Qed.

Lemma quiet_collectFrom_task (utxos : list UTxO) (redeemer : option Redeemer) :
  quiet (@collectFrom_task W lucid utxos redeemer).
Proof.
  induction utxos as [|u rest IH]; cbn [collectFrom_task]; [apply quiet_ret|].
  apply quiet_bind.
  - apply quiet_if; [|apply quiet_ret].
    apply quiet_bind; [apply quiet_await|]. intros d. apply quiet_ret.
  - intros u1. apply quiet_bind; [apply quiet_call|]. intros _. exact IH.
Qed.

Lemma quiet_owners_forEach (owners : list RewardAddress) :
  forall acc, quiet (@owners_forEach W lucid owners acc).
Proof.
  induction owners as [|o rest IH]; intros acc; cbn [owners_forEach]; [apply quiet_ret|].
  apply quiet_bind; [apply quiet_ask|]. intros d.
  destruct (stakeCredential d) as [c|]; [|apply quiet_throw].
  destruct (cred_type c); [apply IH|apply quiet_throw].
Qed.

Lemma quiet_createPoolRegistration (poolParams : PoolParams) :
  quiet (@createPoolRegistration W lucid is_reward fetch poolParams).
Proof.
  unfold createPoolRegistration.
  apply quiet_bind; [apply quiet_owners_forEach|]. intros poolOwners.
  apply quiet_bind.
  - apply quiet_if; [|apply quiet_ret].
    apply quiet_bind; [apply quiet_await|]. intros body. apply quiet_ret.
  - intros metadata. apply quiet_ret.
Qed.

Lemma quiet_finalize (options : option CompleteOptions) :
  quiet (@finalize W lucid options).
Proof.
  unfold finalize.
  apply quiet_bind; [apply quiet_await|]. intros utxos.
  apply quiet_bind; [apply quiet_if; [apply quiet_ret|apply quiet_await]|]. intros address.
  apply quiet_bind; [apply quiet_if; [apply quiet_call|apply quiet_ret]|]. intros _.
  apply quiet_bind; [apply quiet_call|]. intros _.
  apply quiet_bind; [apply quiet_if; [apply quiet_call|apply quiet_ret]|]. intros _.
  apply quiet_bind; [|intros t; apply quiet_ret].
  intros e. split; [|reflexivity]. continues_tac.
Qed.

(** X2: the methods that defer.  [readFrom], [collectFrom], [registerPool]
    and [updatePool] leave the builder alone, await nobody and push exactly
    one task; that task, whenever it runs and whether or not it throws, only
    appends to the calls of the builder and to the collaborators awaited,
    and pushes no further task.  [applyIf] pushes its callback when the
    condition holds and does nothing at all when it does not. *)
Theorem deferring_methods :
  (forall utxos e, exists task,
      @readFrom W lucid utxos e = (e, [task], Ok tt) /\ tame task)
  /\ (forall utxos redeemer e, exists task,
        @collectFrom W lucid utxos redeemer e = (e, [task], Ok tt) /\ tame task)
  /\ (forall poolParams e, exists task,
        @registerPool W lucid is_reward fetch poolParams e = (e, [task], Ok tt)
        /\ tame task)
  /\ (forall poolParams e, exists task,
        @updatePool W lucid is_reward fetch poolParams e = (e, [task], Ok tt)
        /\ tame task)
  /\ (forall callback e, @applyIf W true callback e = (e, [mkTask callback], Ok tt))
  /\ (forall callback e, @applyIf W false callback e = (e, [], Ok tt)).
Proof.
  repeat match goal with |- _ /\ _ => split end; intros.
  - eexists. split; [reflexivity|]. exact (quiet_readFrom_task utxos).
  - eexists. split; [reflexivity|]. exact (quiet_collectFrom_task utxos redeemer).
  - eexists. split; [reflexivity|]. unfold tame. cbn [run].
    apply quiet_bind; [apply quiet_createPoolRegistration|]. intros; apply quiet_call.
  - eexists. split; [reflexivity|]. unfold tame. cbn [run].
    apply quiet_bind; [apply quiet_createPoolRegistration|]. intros; apply quiet_call.
  - reflexivity.
  - reflexivity.
Qed.

Lemma drain_tame (fuel : nat) : forall i tx,
  Forall tame (tasks tx) ->
  List.length (tasks tx) - i <= fuel ->
  exists tx1 r,
    drain fuel i tx = Some (tx1, r)
    /\ continues (env tx) (env tx1)
    /\ tasks tx1 = tasks tx.
Proof.
  induction fuel as [|fuel IH]; intros i tx Htame Hfuel; rewrite drain_eq;
    destruct (nth_error (tasks tx) i) as [task|] eqn:E;
    try (exists tx, (Ok tt); split; [reflexivity|]; split;
         [apply continues_refl|reflexivity]).
  - assert (i < List.length (tasks tx)) by (apply nth_error_Some; congruence). lia.
  - assert (Hi : i < List.length (tasks tx)) by (apply nth_error_Some; congruence).
    assert (Ht : tame task).
    { eapply Forall_forall; [exact Htame|]. eapply nth_error_In; exact E. }
    specialize (Ht (env tx)). unfold invoke. cbn [start env tasks started].
    destruct (run task (env tx)) as [[e1 q1] r1]. cbn in Ht. destruct Ht as [Hc Hq].
    subst q1. rewrite app_nil_r. destruct r1 as [u|x].
    + destruct (IH (S i) {| env := e1; tasks := tasks tx; started := started tx ++ [i] |})
        as [tx1 [r [Hd [Hc1 Ht1]]]]; [exact Htame|cbn; lia|].
      exists tx1, r. split; [exact Hd|]. split; [|exact Ht1].
      eapply continues_trans; eauto.
    + eexists _, _. split; [reflexivity|]. split; [exact Hc|reflexivity].
Qed.

(** X3: on a builder whose queued tasks are all of the kind the library
    itself enqueues, [complete] returns as soon as the fuel covers the
    length of the queue; and whatever it returns, nothing the builder had
    received before is taken back or reordered, the state of the callbacks
    is the same, and the queue is the same. *)
Theorem complete_preserves (fuel : nat) (options : option CompleteOptions) tx :
  Forall tame (tasks tx) ->
  List.length (tasks tx) <= fuel ->
  exists tx1 r,
    complete lucid fuel options tx = Some (tx1, r)
    /\ continues (env tx) (env tx1)
    /\ tasks tx1 = tasks tx.
Proof.
  intros Htame Hfuel. unfold complete.
  destruct (truthy (options_asHash options) && truthy (options_inline options)).
  { exists tx, (Throw ConflictingDatumError).
    split; [reflexivity|]. split; [apply continues_refl|reflexivity]. }
  destruct (drain_tame fuel 0 tx Htame) as [tx1 [r [Hd [Hc Ht]]]]; [lia|].
  rewrite Hd. destruct r as [[]|x].
  - unfold invoke. pose proof (quiet_finalize options (env tx1)) as [Hf Hq].
    destruct (finalize lucid options (env tx1)) as [[e2 q2] r2]. cbn in Hf, Hq. subst q2.
    eexists _, _. split; [reflexivity|]. cbn. split.
    + eapply continues_trans; eauto.
    + now rewrite app_nil_r.
  - eexists _, _. split; [reflexivity|]. auto.
Qed.

End Discipline.

(** X3, at a builder with one [readFrom] queued. *)
Lemma complete_preserves_witness :
  exists tx1 r,
    complete lucid_with_datums 1 None
      (fst (invoke (readFrom lucid_with_datums [utxo_plain; utxo_hashed]) (Tx_new tt)))
    = Some (tx1, r)
    /\ continues (env (Tx_new tt)) (env tx1)
    /\ List.length (tasks tx1) = 1.
Proof.
  destruct (complete_preserves lucid_with_datums 1 None
              (fst (invoke (readFrom lucid_with_datums [utxo_plain; utxo_hashed])
                      (Tx_new tt)))) as [tx1 [r [Hc [Hk Ht]]]].
  - unfold readFrom, push, invoke, Tx_new. cbn [fst tasks app env].
    constructor; [|constructor].
    exact (quiet_readFrom_task lucid_with_datums [utxo_plain; utxo_hashed]).
  - cbn. lia.
  - exists tx1, r. split; [exact Hc|]. split; [exact Hk|]. now rewrite Ht.
Defined.

(** ** Further properties: reading and collecting utxos *)

Section Utxos.

Context {W : Type}.
Variable lucid : Lucid.
Implicit Types (tx : Tx W) (e : Env W).

Lemma readFrom_task_closed (utxos : list UTxO) : forall e,
  (forall u, In u utxos -> needs_datum u = true -> datumOf lucid u <> None) ->
  readFrom_task lucid utxos e
  = ({| txBuilder := txBuilder e ++ flat_map (reference_calls lucid) utxos;
        events := events e ++ map AwaitDatumOf (filter needs_datum utxos);
        user := user e |}, [], Ok tt).
Proof.
  induction utxos as [|u rest IH]; intros e H.
  - cbn. rewrite !app_nil_r. destruct e; reflexivity.
  - cbn [readFrom_task flat_map filter]. unfold bind at 1.
    unfold reference_calls at 1, resolved at 1. fold (needs_datum u).
    destruct (needs_datum u) eqn:En.
    + destruct (datumOf lucid u) as [d|] eqn:Ed;
        [|exfalso; apply (H u); [now left|exact En|exact Ed]].
      unfold await, bind, emit, call, ret. cbn.
      rewrite IH by (intros v Hv; apply H; now right). cbn.
      rewrite <- !app_assoc. reflexivity.
    + unfold bind, call, ret. cbn.
      rewrite IH by (intros v Hv; apply H; now right). cbn.
      rewrite <- !app_assoc. reflexivity.
Qed.

Lemma reference_inputs_calls (utxos : list UTxO) :
  reference_inputs (flat_map (reference_calls lucid) utxos)
  = map (fun u => C.utxoToCore (resolved lucid u)) utxos.
Proof.
  induction utxos as [|u rest IH]; [reflexivity|].
  cbn [flat_map map]. unfold reference_inputs in *. rewrite flat_map_app, IH.
  unfold reference_calls.
  destruct (needs_datum u); [destruct (datumOf lucid u)|]; reflexivity.
Qed.

Lemma plutus_data_calls (utxos : list UTxO) :
  (forall u, In u utxos -> needs_datum u = true -> datumOf lucid u <> None) ->
  plutus_data (flat_map (reference_calls lucid) utxos)
  = map (fun u => C.PlutusData_from_bytes (C.fromHex (the (datumOf lucid u))))
      (filter needs_datum utxos).
Proof.
  induction utxos as [|u rest IH]; intros H; [reflexivity|].
  cbn [flat_map filter]. unfold plutus_data in *. rewrite flat_map_app, IH
    by (intros v Hv; apply H; now right).
  unfold reference_calls.
  destruct (needs_datum u) eqn:En; [|reflexivity].
  cbn [map].
  destruct (datumOf lucid u) as [d|] eqn:Ed;
    [reflexivity|exfalso; apply (H u); [now left|exact En|exact Ed]].
Qed.

(** X4: the task of [readFrom], when the provider knows every datum it is
    asked for.  It never throws; it looks up the datum of exactly the utxos
    that carry a datum hash and no datum, in the order given; it adds one
    reference input per utxo, in the order given, each with the datum that
    was looked up; it adds the looked-up datums, and only those, to the
    witness data; and it calls nothing else on the builder: no input is
    spent. *)
Theorem readFrom_task_reads (utxos : list UTxO) e :
  (forall u, In u utxos -> needs_datum u = true -> datumOf lucid u <> None) ->
  exists calls,
    readFrom_task lucid utxos e
    = ({| txBuilder := txBuilder e ++ calls;
          events := events e ++ map AwaitDatumOf (filter needs_datum utxos);
          user := user e |}, [], Ok tt)
    /\ reference_inputs calls = map (fun u => C.utxoToCore (resolved lucid u)) utxos
    /\ plutus_data calls
       = map (fun u => C.PlutusData_from_bytes (C.fromHex (the (datumOf lucid u))))
           (filter needs_datum utxos)
    /\ Forall (fun c => match c with
                        | C.add_reference_input _ | C.add_plutus_data _ => True
                        | _ => False
                        end) calls.
Proof.
  intros H. exists (flat_map (reference_calls lucid) utxos).
  split; [apply readFrom_task_closed, H|].
  split; [apply reference_inputs_calls|].
  split; [apply plutus_data_calls, H|].
  apply Forall_flat_map, Forall_forall. intros u _. unfold reference_calls.
  destruct (needs_datum u); [destruct (datumOf lucid u)|]; repeat constructor.
Qed.



Lemma readFrom_task_fails_at (pre post : list UTxO) (u : UTxO) : forall e,
  (forall v, In v pre -> needs_datum v = true -> datumOf lucid v <> None) ->
  needs_datum u = true -> datumOf lucid u = None ->
  readFrom_task lucid (pre ++ u :: post) e
  = ({| txBuilder := txBuilder e ++ flat_map (reference_calls lucid) pre;
        events := events e ++ map AwaitDatumOf (filter needs_datum pre) ++ [AwaitDatumOf u];
        user := user e |}, [], Throw (Rejected DatumLookup)).
Proof.
  induction pre as [|v rest IH]; intros e H Hn Hd.
  - cbn [app readFrom_task]. unfold bind at 1. fold (needs_datum u). rewrite Hn.
    unfold await, bind, emit, throw. rewrite Hd. cbn. now rewrite app_nil_r.
  - cbn [app readFrom_task flat_map filter]. unfold bind at 1.
    unfold reference_calls at 1, resolved at 1. fold (needs_datum v).
    destruct (needs_datum v) eqn:En.
    + destruct (datumOf lucid v) as [d|] eqn:Ed;
        [|exfalso; apply (H v); [now left|exact En|exact Ed]].
      unfold await, bind, emit, call, ret. cbn.
      rewrite IH by (auto; intros w Hw; apply H; now right). cbn.
      rewrite <- !app_assoc. reflexivity.
    + unfold bind, call, ret. cbn.
      rewrite IH by (auto; intros w Hw; apply H; now right). cbn.
      rewrite <- !app_assoc. reflexivity.
Qed.

Lemma collectFrom_task_fails_at (pre post : list UTxO) (u : UTxO)
  (redeemer : option Redeemer) : forall e,
  (forall v, In v pre -> needs_datum v = true -> datumOf lucid v <> None) ->
  needs_datum u = true -> datumOf lucid u = None ->
  collectFrom_task lucid (pre ++ u :: post) redeemer e
  = ({| txBuilder :=
          txBuilder e
          ++ map (fun v => C.add_input (C.utxoToCore (resolved lucid v))
                             (plutus_witness redeemer (input_datum (resolved lucid v))))
               pre;
        events := events e ++ map AwaitDatumOf (filter needs_datum pre) ++ [AwaitDatumOf u];
        user := user e |}, [], Throw (Rejected DatumLookup)).
Proof.
  induction pre as [|v rest IH]; intros e H Hn Hd.
  - cbn [app collectFrom_task]. unfold bind at 1. fold (needs_datum u). rewrite Hn.
    unfold await, bind, emit, throw. rewrite Hd. cbn. now rewrite app_nil_r.
  - cbn [app collectFrom_task map filter]. unfold bind at 1.
    unfold resolved at 1 2. fold (needs_datum v).
    destruct (needs_datum v) eqn:En.
    + destruct (datumOf lucid v) as [d|] eqn:Ed;
        [|exfalso; apply (H v); [now left|exact En|exact Ed]].
      unfold await, bind, emit, call, ret. cbn.
      rewrite IH by (auto; intros w Hw; apply H; now right). cbn.
      rewrite <- !app_assoc. reflexivity.
    + unfold bind, call, ret. cbn.
      rewrite IH by (auto; intros w Hw; apply H; now right). cbn.
      rewrite <- !app_assoc. reflexivity.
Qed.

(** X6: a datum the provider does not know.  The tasks of [readFrom] and of
    [collectFrom] throw at the first utxo whose datum cannot be looked up:
    what the utxos before it added to the builder stays there, and nothing
    is added for that utxo nor for the ones after it, which are not even
    looked up. *)
Theorem lookup_failure_is_partial (pre post : list UTxO) (u : UTxO)
  (redeemer : option Redeemer) e :
  (forall v, In v pre -> needs_datum v = true -> datumOf lucid v <> None) ->
  needs_datum u = true -> datumOf lucid u = None ->
  (exists calls,
     readFrom_task lucid (pre ++ u :: post) e
     = ({| txBuilder := txBuilder e ++ calls;
           events := events e ++ map AwaitDatumOf (filter needs_datum pre)
                     ++ [AwaitDatumOf u];
           user := user e |}, [], Throw (Rejected DatumLookup))
     /\ reference_inputs calls = map (fun v => C.utxoToCore (resolved lucid v)) pre)
  /\ (exists calls,
        collectFrom_task lucid (pre ++ u :: post) redeemer e
        = ({| txBuilder := txBuilder e ++ calls;
              events := events e ++ map AwaitDatumOf (filter needs_datum pre)
                        ++ [AwaitDatumOf u];
              user := user e |}, [], Throw (Rejected DatumLookup))
        /\ map fst (inputs calls) = map (fun v => C.utxoToCore (resolved lucid v)) pre
        /\ List.length calls = List.length pre).
Proof.
  intros H Hn Hd. split.
  - eexists. split; [apply readFrom_task_fails_at; assumption|].
    apply reference_inputs_calls.
  - eexists. split; [apply collectFrom_task_fails_at; assumption|].
    split; [|apply length_map].
    unfold inputs. clear H. induction pre as [|v rest IH]; [reflexivity|].
    cbn. f_equal. exact IH.
Qed.

End Utxos.

(** X4, at three utxos of which the second needs its datum looked up. *)
Lemma readFrom_task_reads_witness :
  exists calls,
    readFrom_task lucid_with_datums [utxo_plain; utxo_hashed; utxo_with_datum]
      (env (Tx_new tt))
    = ({| txBuilder := calls; events := [AwaitDatumOf utxo_hashed]; user := tt |},
       [], Ok tt)
    /\ reference_inputs calls
       = [C.utxoToCore utxo_plain; C.utxoToCore (with_datum utxo_hashed "d87980");
          C.utxoToCore utxo_with_datum]
    /\ plutus_data calls = [C.PlutusData_from_bytes (C.fromHex "d87980")].
Proof.
  destruct (readFrom_task_reads lucid_with_datums
              [utxo_plain; utxo_hashed; utxo_with_datum] (env (Tx_new tt)))
    as [calls [Hrun [Hrefs [Hdata _]]]].
  - intros u _ _. discriminate.
  - exists calls. split; [exact Hrun|]. split; [exact Hrefs|exact Hdata].
Defined.


(** X6, at a provider that knows no datum: the first utxo is added, the
    second stops the task, the third is never reached. *)
Lemma lookup_failure_is_partial_witness :
  (exists calls,
     readFrom_task lucid_without_datums [utxo_plain; utxo_hashed; utxo_with_datum]
       (env (Tx_new tt))
     = ({| txBuilder := calls; events := [AwaitDatumOf utxo_hashed]; user := tt |},
        [], Throw (Rejected DatumLookup))
     /\ reference_inputs calls = [C.utxoToCore utxo_plain])
  /\ (exists calls,
        collectFrom_task lucid_without_datums [utxo_plain; utxo_hashed; utxo_with_datum]
          None (env (Tx_new tt))
        = ({| txBuilder := calls; events := [AwaitDatumOf utxo_hashed]; user := tt |},
           [], Throw (Rejected DatumLookup))
        /\ List.length calls = 1).
Proof.
  destruct (lookup_failure_is_partial lucid_without_datums
              [utxo_plain] [utxo_with_datum] utxo_hashed None (env (Tx_new tt)))
    as [[c1 [H1 R1]] [c2 [H2 [_ L2]]]].
  - intros v [<-|[]]. discriminate.
  - reflexivity.
  - reflexivity.
  - split; [exists c1|exists c2]; split; assumption.
Defined.

(** ** Further properties: the queue and [complete] *)

Section Deferred.

Context {W : Type}.
Variable lucid : Lucid.
Implicit Types (tx : Tx W) (e : Env W).

(** X7: the callback handed to [applyIf] is not run by [applyIf].  It is run
    by [complete], against the builder as the calls made after [applyIf]
    have left it: what the callback adds comes after what those calls
    added. *)
Theorem applyIf_runs_at_complete (callback later : M W unit) (fuel : nat) tx e1 e2 r :
  tasks tx = [] ->
  later (env tx) = (e1, [], Ok tt) ->
  callback e1 = (e2, [], r) ->
  invoke (applyIf true callback ;; later)%tx tx
  = ({| env := e1; tasks := [mkTask callback]; started := started tx |}, Ok tt)
  /\ drain (S fuel) 0 {| env := e1; tasks := [mkTask callback]; started := started tx |}
     = Some ({| env := e2; tasks := [mkTask callback]; started := started tx ++ [0] |}, r).
Proof.
  intros Hq Hl Hc. split.
  - unfold invoke, bind, applyIf, push. rewrite Hl, Hq. reflexivity.
  - cbn [drain tasks nth_error]. unfold invoke. cbn [run start env tasks started].
    rewrite Hc. cbn [app].
    destruct r as [[]|x]; [|reflexivity].
    rewrite drain_eq. reflexivity.
Qed.

(** X8: a task that a running callback enqueues, as in
    [tx.applyIf(c, tx => tx.collectFrom(utxos))], is run by the same
    [complete], after the callback that enqueued it. *)
Theorem pushed_task_runs_in_same_loop (callback : M W unit) (task : Task W)
  (fuel : nat) tx e1 e2 r :
  tasks tx = [] ->
  callback (env tx) = (e1, [task], Ok tt) ->
  run task e1 = (e2, [], r) ->
  drain (S (S fuel)) 0 (fst (invoke (applyIf true callback) tx))
  = Some ({| env := e2; tasks := [mkTask callback; task];
             started := started tx ++ [0; 1] |}, r).
Proof.
  intros Hq Hc Hr.
  unfold invoke at 1, applyIf, push. rewrite Hq. cbn [fst app].
  cbn [drain tasks nth_error]. unfold invoke at 1. cbn [run start env tasks started].
  rewrite Hc. cbn [app nth_error].
  unfold invoke. cbn [run start env tasks started].
  rewrite Hr, <- app_assoc. cbn [app].
  destruct r as [[]|x]; [|reflexivity].
  rewrite drain_eq. reflexivity.
Qed.




End Deferred.

(** X7, at two payments: the one inside the callback lands second. *)
Lemma applyIf_runs_at_complete_witness :
  let paid a := C.add_output
                  (C.TransactionOutput_new (C.Address_from_bech32 a)
                     (C.assetsToValue [("lovelace", 1000000%Z)])) in
  drain 1 0
    (fst (invoke (applyIf true (payToAddress "addr_first" [("lovelace", 1000000%Z)]) ;;
                  payToAddress "addr_second" [("lovelace", 1000000%Z)])%tx (Tx_new tt)))
  = Some ({| env := {| txBuilder := [paid "addr_second"; paid "addr_first"];
                       events := []; user := tt |};
             tasks := [mkTask (payToAddress "addr_first" [("lovelace", 1000000%Z)])];
             started := [0] |}, Ok tt).
Proof.
  intros paid.
  destruct (applyIf_runs_at_complete
              (payToAddress "addr_first" [("lovelace", 1000000%Z)])
              (payToAddress "addr_second" [("lovelace", 1000000%Z)])
              0 (Tx_new tt)
              {| txBuilder := [paid "addr_second"]; events := []; user := tt |}
              {| txBuilder := [paid "addr_second"; paid "addr_first"];
                 events := []; user := tt |}
              (Ok tt)) as [Hi Hd].
  - reflexivity.
  - reflexivity.
  - reflexivity.
  - rewrite Hi. exact Hd.
Defined.

(** X8, at a callback that collects one utxo. *)
Lemma pushed_task_runs_in_same_loop_witness :
  drain 2 0 (fst (invoke (applyIf true (collectFrom lucid_with_datums [utxo_plain] None))
                    (Tx_new tt)))
  = Some ({| env := {| txBuilder := [C.add_input (C.utxoToCore utxo_plain) None];
                       events := []; user := tt |};
             tasks := [mkTask (collectFrom lucid_with_datums [utxo_plain] None);
                       mkTask (collectFrom_task lucid_with_datums [utxo_plain] None)];
             started := [0; 1] |}, Ok tt).
Proof.
  apply (pushed_task_runs_in_same_loop
           (collectFrom lucid_with_datums [utxo_plain] None)
           (mkTask (collectFrom_task lucid_with_datums [utxo_plain] None))
           0 (Tx_new tt) (env (Tx_new tt))); reflexivity.
Defined.


(** ** Further properties: pool certificates *)

Section PoolCertificates.

Context {W : Type}.
Variable lucid : Lucid.
Variable is_reward : C.Address -> bool.
Variable fetch : string -> option string.
Implicit Types (tx : Tx W) (e : Env W).

Lemma owners_forEach_keys (owners : list RewardAddress) : forall acc e,
  (forall o, In o owners -> owner_key lucid o <> None) ->
  exists keys,
    owners_forEach lucid owners acc e = (e, [], Ok (acc ++ keys))
    /\ map Some keys = map (owner_key lucid) owners.
Proof.
  induction owners as [|o rest IH]; intros acc e H.
  - exists []. rewrite app_nil_r. split; reflexivity.
  - cbn [owners_forEach map]. unfold bind, ask.
    pose proof (H o (or_introl eq_refl)) as Ho. unfold owner_key in Ho |- *.
    destruct (getAddressDetails lucid o) as [d|]; [|contradiction]. cbn.
    destruct (stakeCredential d) as [c|]; [|contradiction].
    destruct (cred_type c); [|contradiction].
    destruct (IH (acc ++ [C.Ed25519KeyHash_from_hex (hash c)]) e) as [keys [Hk Hm]];
      [intros v Hv; apply H; now right|].
    exists (C.Ed25519KeyHash_from_hex (hash c) :: keys).
    rewrite Hk, <- app_assoc. cbn. rewrite Hm. split; reflexivity.
Qed.

Lemma owners_forEach_offender (pre post : list RewardAddress) (o : RewardAddress) :
  forall acc e,
  (forall v, In v pre -> owner_key lucid v <> None) ->
  owner_key lucid o = None ->
  owners_forEach lucid (pre ++ o :: post) acc e
  = (e, [], Throw (match getAddressDetails lucid o with
                   | Some _ => UnsupportedCredentialType
                   | None => Rejected Resolver
                   end)).
Proof.
  induction pre as [|v rest IH]; intros acc e H Ho.
  - cbn [app owners_forEach]. unfold bind, ask. unfold owner_key in Ho.
    destruct (getAddressDetails lucid o) as [d|]; [|reflexivity]. cbn.
    destruct (stakeCredential d) as [c|]; [|reflexivity].
    destruct (cred_type c); [discriminate|reflexivity].
  - cbn [app owners_forEach]. unfold bind, ask.
    pose proof (H v (or_introl eq_refl)) as Hv. unfold owner_key in Hv.
    destruct (getAddressDetails lucid v) as [d|]; [|contradiction]. cbn.
    destruct (stakeCredential d) as [c|]; [|contradiction].
    destruct (cred_type c); [|contradiction].
    rewrite IH; [reflexivity| |exact Ho]. intros w Hw. apply H. now right.
Qed.


(** X11: the first owner that does not resolve to a key-hash stake
    credential decides.  If the resolver does not know it, its error comes
    through; if it resolves to a script hash or has no stake credential at
    all, the key-hash-only error is thrown.  Either way this happens before
    the metadata is fetched and nothing is called on the builder, for
    [registerPool] and [updatePool] alike. *)
Theorem pool_owner_refused (poolParams : PoolParams) (pre post : list RewardAddress)
  (o : RewardAddress) e :
  owners poolParams = pre ++ o :: post ->
  (forall v, In v pre -> owner_key lucid v <> None) ->
  owner_key lucid o = None ->
  let thrown := match getAddressDetails lucid o with
                | Some _ => UnsupportedCredentialType
                | None => Rejected Resolver
                end in
  @createPoolRegistration W lucid is_reward fetch poolParams e = (e, [], Throw thrown)
  /\ (forall e0 task,
        registerPool lucid is_reward fetch poolParams e0 = (e0, [task], Ok tt) ->
        run task e = (e, [], Throw thrown))
  /\ (forall e0 task,
        updatePool lucid is_reward fetch poolParams e0 = (e0, [task], Ok tt) ->
        run task e = (e, [], Throw thrown)).
Proof.
  intros Hsplit Hpre Ho thrown.
  assert (Hc : @createPoolRegistration W lucid is_reward fetch poolParams e
               = (e, [], Throw thrown)).
  { unfold createPoolRegistration. unfold bind at 1.
    rewrite Hsplit, (owners_forEach_offender pre post o [] e Hpre Ho). reflexivity. }
  split; [exact Hc|].
  split; intros e0 task Ht; unfold registerPool, updatePool, push in Ht;
    inversion Ht; subst; cbn [run]; unfold bind; rewrite Hc; reflexivity.
Qed.

(** X12: a metadata URL that cannot be fetched.  With owners that all
    resolve to key hashes, the fetch is awaited and its failure comes
    through: no certificate is added to the builder by the task of
    [registerPool] nor by that of [updatePool]. *)
Theorem pool_metadata_unfetched (poolParams : PoolParams) e :
  (forall o, In o (owners poolParams) -> owner_key lucid o <> None) ->
  truthy (metadataUrl poolParams) = true ->
  fetch (the (metadataUrl poolParams)) = None ->
  let e1 := {| txBuilder := txBuilder e;
               events := events e ++ [AwaitFetch (the (metadataUrl poolParams))];
               user := user e |} in
  (forall e0 task,
     registerPool lucid is_reward fetch poolParams e0 = (e0, [task], Ok tt) ->
     run task e = (e1, [], Throw (Rejected Fetcher)))
  /\ (forall e0 task,
        updatePool lucid is_reward fetch poolParams e0 = (e0, [task], Ok tt) ->
        run task e = (e1, [], Throw (Rejected Fetcher))).
Proof.
  intros Hown Hu Hf e1.
  destruct (owners_forEach_keys (owners poolParams) [] e Hown) as [keys [Hk _]].
  assert (Hc : @createPoolRegistration W lucid is_reward fetch poolParams e
               = (e1, [], Throw (Rejected Fetcher))).
  { unfold createPoolRegistration. unfold bind at 1. rewrite Hk, Hu.
    unfold bind, await, emit, throw. rewrite Hf. reflexivity. }
  split; intros e0 task Ht; unfold registerPool, updatePool, push in Ht;
    inversion Ht; subst; cbn [run]; unfold bind; rewrite Hc; reflexivity.
Qed.

End PoolCertificates.


(** X11, at a pool whose second owner is an enterprise address, which has no
    stake credential. *)
Lemma pool_owner_refused_witness :
  createPoolRegistration lucid_with_enterprise sample_is_reward fetch_pool_json
    pool_with_enterprise_owner (env (Tx_new tt))
  = (env (Tx_new tt), [], Throw UnsupportedCredentialType).
Proof.
  destruct (pool_owner_refused lucid_with_enterprise sample_is_reward fetch_pool_json
              pool_with_enterprise_owner [stake_key_address] [stake_script_address]
              enterprise_address (env (Tx_new tt))) as [H _].
  - reflexivity.
  - intros v [<-|[]]. discriminate.
  - reflexivity.
  - exact H.
Defined.

(** X12, at a pool whose metadata URL nobody serves. *)
Lemma pool_metadata_unfetched_witness :
  exists task,
    registerPool sample_lucid sample_is_reward sample_fetch pool_of_keys (env (Tx_new tt))
    = (env (Tx_new tt), [task], Ok tt)
    /\ run task (env (Tx_new tt))
       = ({| txBuilder := []; events := [AwaitFetch "https://example.org/pool.json"];
             user := tt |}, [], Throw (Rejected Fetcher)).
Proof.
  destruct (pool_metadata_unfetched sample_lucid sample_is_reward sample_fetch
              pool_of_keys (env (Tx_new tt))) as [H _].
  - intros o Ho. cbn in Ho. destruct Ho as [<-|[<-|[]]]; discriminate.
  - reflexivity.
  - reflexivity.
  - eexists. split; [reflexivity|]. apply (H (env (Tx_new tt))). reflexivity.
Defined.

(** ** Further properties: relay addresses *)

Lemma string_app_assoc (a b c : string) : ((a ++ b) ++ c = a ++ (b ++ c))%string.
Proof. induction a as [|x a IH]; cbn; [reflexivity|now rewrite IH]. Qed.

Lemma string_app_nil_r (a : string) : (a ++ "" = a)%string.
Proof. induction a as [|x a IH]; cbn; [reflexivity|now rewrite IH]. Qed.

Lemma split_go_free (sep : ascii) (p : string) : forall cur s,
  occurs sep p = false ->
  split_go sep cur (p ++ s)%string = split_go sep (cur ++ p)%string s.
Proof.
  induction p as [|c p IH]; intros cur s H; cbn.
  - now rewrite string_app_nil_r.
  - cbn in H. apply orb_false_elim in H. destruct H as [Hc Hp].
    rewrite Hc, IH by exact Hp. now rewrite string_app_assoc.
Qed.

Lemma join_cons (sep p q : string) (rest : list string) :
  join sep (p :: q :: rest) = (p ++ sep ++ join sep (q :: rest))%string.
Proof. reflexivity. Qed.

Lemma split_go_join (sep : ascii) (parts : list string) : forall cur p,
  Forall (fun q => occurs sep q = false) (p :: parts) ->
  split_go sep cur (join (String sep "") (p :: parts)) = (cur ++ p)%string :: parts.
Proof.
  induction parts as [|q rest IH]; intros cur p H.
  - cbn [join]. rewrite <- (string_app_nil_r p) at 1.
    rewrite split_go_free by (now inversion H). reflexivity.
  - rewrite join_cons, split_go_free by (now inversion H).
    cbn [append split_go]. rewrite Ascii.eqb_refl.
    rewrite IH by (now inversion H). reflexivity.
Qed.

Lemma remove_all_free (c : ascii) (p : string) :
  occurs c p = false -> remove_all c p = p.
Proof.
  induction p as [|d p IH]; cbn; intros H; [reflexivity|].
  apply orb_false_elim in H. destruct H as [Hd Hp]. now rewrite Hd, IH.
Qed.

Lemma remove_all_app (c : ascii) (a b : string) :
  remove_all c (a ++ b) = (remove_all c a ++ remove_all c b)%string.
Proof.
  induction a as [|d a IH]; cbn; [reflexivity|].
  destruct (Ascii.eqb d c); cbn; now rewrite IH.
Qed.

Lemma remove_all_join (c : ascii) (groups : list string) :
  Forall (fun g => occurs c g = false) groups ->
  remove_all c (join (String c "") groups) = String.concat "" groups.
Proof.
  induction groups as [|g rest IH]; intros H; [reflexivity|].
  destruct rest as [|h rest].
  - cbn. apply remove_all_free. now inversion H.
  - rewrite join_cons. change (String.concat "" (g :: h :: rest))
      with (g ++ "" ++ String.concat "" (h :: rest))%string.
    rewrite !remove_all_app.
    rewrite remove_all_free by (now inversion H).
    cbn [remove_all]. rewrite Ascii.eqb_refl. cbn [append].
    rewrite IH by (now inversion H). reflexivity.
Qed.

(** X13: how a single-host relay is read.  An IPv4 address made of fields
    joined by dots gives one number per field, in order, each handed to
    [parseInt] as written; an IPv6 address made of groups joined by colons
    is decoded from the groups run together, no colon left; the domain name
    of such a relay is ignored. *)
Theorem relay_addresses (fields groups : list string) (f g : string)
  (p : option nat) (dn : option string) :
  Forall (fun q => occurs "." q = false) (f :: fields) ->
  Forall (fun q => occurs ":" q = false) (g :: groups) ->
  join "." (f :: fields) <> "" ->
  join ":" (g :: groups) <> "" ->
  relay_of {| relay_type := SingleHostIp;
              ipV4 := Some (join "." (f :: fields));
              ipV6 := Some (join ":" (g :: groups));
              port := p; domainName := dn |}
  = C.new_single_host_addr p
      (Some (C.Ipv4_new (map C.parseInt (f :: fields))))
      (Some (C.Ipv6_new (C.fromHex (String.concat "" (g :: groups))))).
Proof.
  intros Hf Hg Hnf Hng. unfold relay_of. cbn [relay_type ipV4 ipV6 port the truthy].
  apply String.eqb_neq in Hnf, Hng. rewrite Hnf, Hng. cbn [negb].
  unfold split. rewrite (split_go_join "." fields "" f Hf).
  rewrite (remove_all_join ":" (g :: groups) Hg). reflexivity.
Qed.

(** X13, at an IPv4 dotted quad and a full IPv6 address. *)
Lemma relay_addresses_witness :
  relay_of {| relay_type := SingleHostIp;
              ipV4 := Some "192.168.0.1";
              ipV6 := Some "2001:0db8:0000:0000:0000:ff00:0042:8329";
              port := Some 3001; domainName := None |}
  = C.new_single_host_addr (Some 3001)
      (Some (C.Ipv4_new [C.parseInt "192"; C.parseInt "168"; C.parseInt "0";
                         C.parseInt "1"]))
      (Some (C.Ipv6_new (C.fromHex "20010db8000000000000ff0000428329"))).
Proof.
  apply (relay_addresses ["168"; "0"; "1"]
           ["0db8"; "0000"; "0000"; "0000"; "ff00"; "0042"; "8329"] "192" "2001"
           (Some 3001) None).
  - repeat constructor.
  - repeat constructor.
  - discriminate.
  - discriminate.
Defined.

(** ** Further properties: signers and stake certificates *)

Section Signers.

Context {W : Type}.
Variable lucid : Lucid.
Implicit Types (tx : Tx W) (e : Env W).

(** X14: which credential [addSigner] takes, and when it refuses.  For an
    address the resolver knows, the stake credential is used for a reward
    address and the payment credential for any other; when that credential
    is a key hash, [addSigner] is [addSignerKey] on its hash, whatever the
    other credential is; when it is a script hash, [addSigner] throws and
    adds nothing, even if the other credential is a key hash.  An address
    with no credential at all is refused as not valid, and one that lacks
    just the credential its kind calls for ends in a type error. *)
Theorem addSigner_credential (address : Address) (d : AddressDetails) e :
  getAddressDetails lucid address = Some d ->
  (forall c, signing_credential d = Some c -> cred_type c = Key ->
     addSigner lucid address e = addSignerKey (hash c) e
     /\ addSignerKey (hash c) e
        = (called (C.add_required_signer
                     (C.Ed25519KeyHash_from_bytes (C.fromHex (hash c)))) e, [], Ok tt))
  /\ (forall c, signing_credential d = Some c -> cred_type c = ScriptCredential ->
        addSigner lucid address e
        = (e, [], Throw (Error "Only key hashes are allowed as signers.")))
  /\ (paymentCredential d = None -> stakeCredential d = None ->
      addSigner lucid address e = (e, [], Throw (Error "Not a valid address.")))
  /\ (signing_credential d = None ->
      is_set (paymentCredential d) || is_set (stakeCredential d) = true ->
      addSigner lucid address e = (e, [], Throw TypeError)).
Proof.
  intros Hd. unfold addSigner, bind, ask, signing_credential. rewrite Hd. cbn [ret].
  repeat match goal with |- _ /\ _ => split end.
  - intros c Hc Ht. split; [|reflexivity].
    assert (Hs : negb (is_set (paymentCredential d)) && negb (is_set (stakeCredential d))
                 = false).
    { destruct (is_Reward (address_type d)); rewrite Hc;
        destruct (paymentCredential d), (stakeCredential d); reflexivity. }
    rewrite Hs, Hc, Ht. reflexivity.
  - intros c Hc Ht.
    assert (Hs : negb (is_set (paymentCredential d)) && negb (is_set (stakeCredential d))
                 = false).
    { destruct (is_Reward (address_type d)); rewrite Hc;
        destruct (paymentCredential d), (stakeCredential d); reflexivity. }
    rewrite Hs, Hc, Ht. reflexivity.
  - intros Hp Hs. rewrite Hp, Hs. reflexivity.
  - intros Hc Hs. rewrite Hc.
    destruct (paymentCredential d), (stakeCredential d); try discriminate; reflexivity.
Qed.

(** X15: the three stake certificates on an address the resolver knows.  On
    a reward address with a stake credential each appends its certificate
    holding that credential, a key-hash credential for a key hash and a
    script-hash credential for a script hash; the witness is built from the
    redeemer, and [registerStake] never has one.  On anything else each
    throws the reward-address error and leaves the builder as it was. *)
Theorem stake_certificates (a : RewardAddress) (d : AddressDetails) (pool : PoolId)
  (redeemer : option Redeemer) e :
  getAddressDetails lucid a = Some d ->
  (forall c, address_type d = Reward -> stakeCredential d = Some c ->
     delegateTo lucid a pool redeemer e
     = (called (C.add_certificate
                  (C.new_stake_delegation (stake_credential c)
                     (C.Ed25519KeyHash_from_bech32 pool))
                  (plutus_witness redeemer None)) e, [], Ok tt)
     /\ registerStake lucid a e
        = (called (C.add_certificate (C.new_stake_registration (stake_credential c)) None) e,
           [], Ok tt)
     /\ deregisterStake lucid a redeemer e
        = (called (C.add_certificate (C.new_stake_deregistration (stake_credential c))
                     (plutus_witness redeemer None)) e, [], Ok tt)
     /\ (cred_type c = Key ->
         stake_credential c
         = C.from_keyhash (C.Ed25519KeyHash_from_bytes (C.fromHex (hash c))))
     /\ (cred_type c = ScriptCredential ->
         stake_credential c
         = C.from_scripthash (C.ScriptHash_from_bytes (C.fromHex (hash c)))))
  /\ (address_type d <> Reward \/ stakeCredential d = None ->
      delegateTo lucid a pool redeemer e = (e, [], Throw InvalidAddress)
      /\ registerStake lucid a e = (e, [], Throw InvalidAddress)
      /\ deregisterStake lucid a redeemer e = (e, [], Throw InvalidAddress)).
Proof.
  intros Hd. split.
  - intros c Ht Hc.
    destruct (stake_certificates_reward lucid a d c pool redeemer e Hd Ht Hc)
      as [H1 [H2 H3]].
    split; [exact H1|]. split; [exact H2|]. split; [exact H3|].
    unfold stake_credential. split; intros ->; reflexivity.
  - intros Hn.
    assert (Hr : reward_credential lucid a e = (e, [], Throw InvalidAddress)).
    { unfold reward_credential, bind, ask. rewrite Hd. cbn.
      destruct Hn as [Hn|Hn].
      - destruct (address_type d); try contradiction; reflexivity.
      - rewrite Hn. cbn. now rewrite orb_true_r. }
    unfold delegateTo, registerStake, deregisterStake, bind. rewrite Hr.
    repeat split.
Qed.

End Signers.

(** X14, at a base address whose payment credential is a key hash and whose
    stake credential is a script hash. *)
Lemma addSigner_credential_witness :
  addSigner sample_lucid base_address_script_stake (env (Tx_new tt))
  = (called (C.add_required_signer
               (C.Ed25519KeyHash_from_bytes (C.fromHex (hash key_credential))))
       (env (Tx_new tt)), [], Ok tt)
  /\ addSigner sample_lucid stake_script_address (env (Tx_new tt))
     = (env (Tx_new tt), [], Throw (Error "Only key hashes are allowed as signers.")).
Proof.
  split.
  - destruct (proj1 (addSigner_credential sample_lucid base_address_script_stake _
                       (env (Tx_new tt)) eq_refl) key_credential eq_refl eq_refl)
      as [H1 H2].
    rewrite H1. exact H2.
  - apply (proj1 (proj2 (addSigner_credential sample_lucid stake_script_address _
                           (env (Tx_new tt)) eq_refl)) script_credential);
      reflexivity.
Defined.

(** X15, at a reward address with a script-hash credential and at a base
    address. *)
Lemma stake_certificates_witness :
  registerStake sample_lucid stake_script_address (env (Tx_new tt))
  = (called (C.add_certificate
               (C.new_stake_registration
                  (C.from_scripthash
                     (C.ScriptHash_from_bytes (C.fromHex (hash script_credential)))))
               None) (env (Tx_new tt)), [], Ok tt)
  /\ deregisterStake sample_lucid base_address None (env (Tx_new tt))
     = (env (Tx_new tt), [], Throw InvalidAddress).
Proof.
  split.
  - apply (proj1 (stake_certificates sample_lucid stake_script_address _ "pool1xyz" None
                    (env (Tx_new tt)) eq_refl) script_credential eq_refl eq_refl).
  - apply (proj2 (stake_certificates sample_lucid base_address _ "pool1xyz" None
                    (env (Tx_new tt)) eq_refl)).
    left. discriminate.
Defined.

(** ** Further properties: the end of [complete] *)

Section End_of_complete.

Context {W : Type}.
Variable lucid : Lucid.
Implicit Types (tx : Tx W) (e : Env W).

(** X16: where the change goes.  Once the loop has completed and the wallet
    has listed its utxos, a non-empty [changeAddress] is used as it is and
    the wallet is never asked for its address, so [complete] succeeds even
    if the wallet could not tell it.  Without one (or with the empty
    string) the wallet is asked, after the utxos, and its address is used;
    if it fails, [complete] throws with nothing called on the builder.  All
    the calls made after the loop name the same change address. *)
Theorem complete_change_address (fuel : nat) (options : option CompleteOptions)
  tx tx0 utxos :
  truthy (options_asHash options) && truthy (options_inline options) = false ->
  drain fuel 0 tx = Some (tx0, Ok tt) ->
  getUtxosCore lucid = Some utxos ->
  (truthy (options_changeAddress options) = true ->
   exists tx1 c calls,
     complete lucid fuel options tx = Some (tx1, Ok c)
     /\ events (env tx1) = events (env tx0) ++ [AwaitGetUtxosCore]
     /\ txBuilder (env tx1) = txBuilder (env tx0) ++ calls
     /\ Forall (names_change (C.Address_from_bech32 (the (options_changeAddress options))))
          calls)
  /\ (truthy (options_changeAddress options) = false ->
      forall a, wallet_address lucid = Some a ->
      exists tx1 c calls,
        complete lucid fuel options tx = Some (tx1, Ok c)
        /\ events (env tx1) = events (env tx0) ++ [AwaitGetUtxosCore; AwaitWalletAddress]
        /\ txBuilder (env tx1) = txBuilder (env tx0) ++ calls
        /\ Forall (names_change (C.Address_from_bech32 a)) calls)
  /\ (truthy (options_changeAddress options) = false ->
      wallet_address lucid = None ->
      exists tx1,
        complete lucid fuel options tx = Some (tx1, Throw (Rejected Wallet))
        /\ events (env tx1) = events (env tx0) ++ [AwaitGetUtxosCore; AwaitWalletAddress]
        /\ txBuilder (env tx1) = txBuilder (env tx0)).
Proof.
  intros Hopt Hdrain Hutxos. unfold complete. rewrite Hopt, Hdrain.
  unfold invoke, finalize, bind, await, emit, call, construct, ret, throw.
  rewrite Hutxos. cbn.
  repeat match goal with |- _ /\ _ => split end.
  - intros Hc. rewrite Hc.
    destruct (selects_coins options), (truthy (options_asHash options)); cbn;
      do 3 eexists; (split; [reflexivity|]); cbn;
      (split; [reflexivity|]); rewrite <- ?app_assoc; cbn;
      (split; [reflexivity|]); repeat constructor.
  - intros Hc a Ha. rewrite Hc, Ha. cbn.
    destruct (selects_coins options), (truthy (options_asHash options)); cbn;
      do 3 eexists; (split; [reflexivity|]); cbn;
      rewrite <- ?app_assoc; cbn;
      (split; [reflexivity|]);
      (split; [reflexivity|]); repeat constructor.
  - intros Hc Ha. rewrite Hc, Ha. cbn.
    eexists. split; [reflexivity|]. cbn. rewrite <- app_assoc. split; reflexivity.
Qed.

(** X17: the change datum and the transaction.  Once the loop has completed
    and the wallet has answered, [complete] ends with [construct], and the
    transaction it returns is built from every call the builder had
    received until then.  A non-empty [asHash] makes [balance] carry the
    hash of that datum and puts the datum itself in the witness data; a
    non-empty [inline] (with no [asHash]) makes [balance] carry the datum
    and puts nothing in the witness data; with neither, [balance] carries
    no datum. *)
Theorem complete_change_datum (fuel : nat) (options : option CompleteOptions)
  tx tx0 utxos (address : Address) :
  truthy (options_asHash options) && truthy (options_inline options) = false ->
  drain fuel 0 tx = Some (tx0, Ok tt) ->
  getUtxosCore lucid = Some utxos ->
  (if truthy (options_changeAddress options)
   then Some (the (options_changeAddress options))
   else wallet_address lucid) = Some address ->
  exists tx1 c calls change,
    complete lucid fuel options tx = Some (tx1, Ok c)
    /\ txBuilder (env tx1)
       = txBuilder (env tx0) ++ calls
         ++ [C.construct utxos (C.Address_from_bech32 address)]
    /\ txComplete c = C.Transaction_of (txBuilder (env tx0) ++ calls)
    /\ txComplete_lucid c = lucid
    /\ In (C.balance (C.Address_from_bech32 address) change) calls
    /\ (truthy (options_asHash options) = true ->
        change = Some (C.new_data_hash
                         (C.hash_plutus_data
                            (C.PlutusData_from_bytes
                               (C.fromHex (the (options_asHash options))))))
        /\ plutus_data calls
           = [C.PlutusData_from_bytes (C.fromHex (the (options_asHash options)))])
    /\ (truthy (options_asHash options) = false ->
        truthy (options_inline options) = true ->
        change = Some (C.new_data
                         (C.Data_new
                            (C.PlutusData_from_bytes
                               (C.fromHex (the (options_inline options))))))
        /\ plutus_data calls = [])
    /\ (truthy (options_asHash options) = false ->
        truthy (options_inline options) = false ->
        change = None /\ plutus_data calls = []).
Proof.
  intros Hopt Hdrain Hutxos Haddr. unfold complete. rewrite Hopt, Hdrain.
  unfold invoke, finalize, bind, await, emit, call, construct, ret, throw.
  rewrite Hutxos. cbn.
  destruct (truthy (options_changeAddress options));
    [inversion Haddr as [Ha]; rewrite ?Ha|rewrite Haddr; cbn];
    destruct (selects_coins options) eqn:Es,
             (truthy (options_asHash options)) eqn:Eh,
             (truthy (options_inline options)) eqn:Ei;
    try discriminate Hopt;
    eexists _, _,
      ((if selects_coins options
        then [C.add_inputs_from utxos (C.Address_from_bech32 address)]
        else [])
       ++ [C.balance (C.Address_from_bech32 address) _]
       ++ (if truthy (options_asHash options)
           then [C.add_plutus_data
                   (C.PlutusData_from_bytes (C.fromHex (the (options_asHash options))))]
           else [])), _;
    rewrite Es, Eh; cbn;
    (split; [reflexivity|]); cbn; rewrite <- ?app_assoc; cbn;
    (split; [reflexivity|]); (split; [reflexivity|]); (split; [reflexivity|]);
    (split; [auto 6|]);
    repeat split; intros; try discriminate; reflexivity.
Qed.

End End_of_complete.

(** X16, at a wallet that cannot tell its address and a caller that gives
    the change address. *)
Lemma complete_change_address_witness :
  exists tx1 c calls,
    complete lucid_without_address 0 change_to_enterprise (Tx_new tt) = Some (tx1, Ok c)
    /\ events (env tx1) = [AwaitGetUtxosCore]
    /\ txBuilder (env tx1) = calls
    /\ Forall (names_change (C.Address_from_bech32 enterprise_address)) calls.
Proof.
  apply (proj1 (complete_change_address lucid_without_address 0 change_to_enterprise
                  (Tx_new tt) (Tx_new tt) [C.utxoToCore utxo_plain]
                  eq_refl eq_refl eq_refl)).
  reflexivity.
Defined.

(** X17, at a change datum given by hash, without coin selection. *)
Lemma complete_change_datum_witness :
  exists tx1 c,
    complete lucid_with_datums 0 change_with_hash (Tx_new tt) = Some (tx1, Ok c)
    /\ txBuilder (env tx1)
       = [C.balance (C.Address_from_bech32 base_address)
            (Some (C.new_data_hash
                     (C.hash_plutus_data (C.PlutusData_from_bytes (C.fromHex "d87980")))));
          C.add_plutus_data (C.PlutusData_from_bytes (C.fromHex "d87980"));
          C.construct [C.utxoToCore utxo_plain] (C.Address_from_bech32 base_address)]
    /\ txComplete c
       = C.Transaction_of
           [C.balance (C.Address_from_bech32 base_address)
              (Some (C.new_data_hash
                       (C.hash_plutus_data
                          (C.PlutusData_from_bytes (C.fromHex "d87980")))));
            C.add_plutus_data (C.PlutusData_from_bytes (C.fromHex "d87980"))].
Proof.
  destruct (complete_change_datum lucid_with_datums 0 change_with_hash
              (Tx_new tt) (Tx_new tt) [C.utxoToCore utxo_plain] base_address
              eq_refl eq_refl eq_refl eq_refl)
    as [tx1 [c [calls [change [Hc [Hb [Ht _]]]]]]].
  exists tx1, c. split; [exact Hc|].
  unfold complete in Hc. cbn in Hc. inversion Hc; subst. cbn. split; reflexivity.
Defined.

(** ** Further properties: minting and paying *)

Section Minting.

Context {W : Type}.
Implicit Types (tx : Tx W) (e : Env W).

Lemma slice_to_app (p n : string) : slice_to (String.length p) (p ++ n) = p.
Proof.
  unfold slice_to. induction p as [|c p IH]; cbn.
  - destruct n; reflexivity.
  - now rewrite IH.
Qed.

Lemma substring_all (n : string) : substring 0 (String.length n) n = n.
Proof. induction n as [|c n IH]; cbn; [reflexivity|now rewrite IH]. Qed.

Lemma string_length_app (p n : string) :
  String.length (p ++ n) = String.length p + String.length n.
Proof. induction p as [|c p IH]; cbn; [reflexivity|now rewrite IH]. Qed.

Lemma slice_from_app (p n : string) : slice_from (String.length p) (p ++ n) = n.
Proof.
  unfold slice_from. rewrite string_length_app.
  replace (String.length p + String.length n - String.length p) with (String.length n)
    by lia.
  induction p as [|c p IH]; cbn; [apply substring_all|exact IH].
Qed.

Lemma append_inj_l (p a b : string) : (p ++ a = p ++ b)%string -> a = b.
Proof.
  induction p as [|c p IH]; cbn; intros H; [exact H|].
  inversion H. auto.
Qed.

Lemma assets_get_unique (assets : Assets) (u : Unit) (q : Z) :
  NoDup (map fst assets) -> In (u, q) assets -> assets_get assets u = Some q.
Proof.
  unfold assets_get. induction assets as [|[k v] rest IH]; cbn; intros Hn Hin.
  - contradiction.
  - inversion Hn as [|? ? Hk Hrest]; subst.
    destruct Hin as [Hin|Hin].
    + inversion Hin; subst. now rewrite String.eqb_refl.
    + destruct (k =? u) eqn:E.
      * apply String.eqb_eq in E. subst k. exfalso. apply Hk.
        change u with (fst (u, q)). apply in_map, Hin.
      * apply IH; assumption.
Qed.

Lemma mint_forEach_named (policyId : string) (assets : Assets) :
  String.length policyId = 56 ->
  NoDup (map fst assets) ->
  forall named acc,
    incl (map (unit_of policyId) named) assets ->
    mint_forEach policyId assets (map fst (map (unit_of policyId) named)) acc
    = Ok (acc ++ map minted_of named).
Proof.
  intros Hlen Hn. induction named as [|[n q] rest IH]; intros acc Hincl.
  - cbn. now rewrite app_nil_r.
  - cbn [map mint_forEach unit_of fst snd].
    rewrite <- Hlen at 1. rewrite slice_to_app, String.eqb_refl. cbn [negb].
    rewrite (assets_get_unique assets (policyId ++ n)%string q Hn)
      by (apply Hincl; now left).
    rewrite IH by (intros x Hx; apply Hincl; now right).
    rewrite <- Hlen at 1. rewrite slice_from_app, <- app_assoc. reflexivity.
Qed.

(** X18: minting assets given by name under one policy.  For a policy id of
    56 characters and a non-empty list of distinct asset names with their
    quantities, [mintAssets] on the units "policy id followed by name"
    registers one mint directive under that policy id holding exactly those
    names with those quantities, in the order of the map. *)
Theorem mintAssets_named (policyId : string) (named : list (string * Z))
  (redeemer : option Redeemer) e :
  String.length policyId = 56 ->
  named <> [] ->
  NoDup (map fst named) ->
  mintAssets (map (unit_of policyId) named) redeemer e
  = (called (C.add_mint (C.ScriptHash_from_bytes (C.fromHex policyId))
               (map minted_of named) (plutus_witness redeemer None)) e, [], Ok tt).
Proof.
  intros Hlen Hne Hn.
  assert (Hnu : NoDup (map fst (map (unit_of policyId) named))).
  { clear Hne. induction named as [|[n q] rest IH]; cbn; [constructor|].
    inversion Hn as [|? ? Hk Hrest]; subst. constructor; [|apply IH, Hrest].
    intros Hin. apply Hk. rewrite map_map in Hin. apply in_map_iff in Hin.
    destruct Hin as [[n' q'] [Heq Hin]]. cbn in Heq. apply append_inj_l in Heq. subst n'.
    change n with (fst (n, q')). apply in_map, Hin. }
  pose proof (mint_forEach_named policyId _ Hlen Hnu named [] (incl_refl _)) as Hm.
  unfold mintAssets. destruct named as [|[n q] rest]; [contradiction|].
  cbn [map unit_of fst snd] in Hm |- *.
  replace (slice_to 56 (policyId ++ n)) with policyId
    by (rewrite <- Hlen; symmetry; apply slice_to_app).
  rewrite Hm. reflexivity.
Qed.

Lemma mintAssets_one_policy (assets : Assets) (redeemer : option Redeemer) e :
  assets <> [] ->
  (forall u1 u2, In u1 (map fst assets) -> In u2 (map fst assets) ->
                 slice_to 56 u1 = slice_to 56 u2) ->
  exists policyId minted,
    (forall u, In u (map fst assets) -> slice_to 56 u = policyId)
    /\ mintAssets assets redeemer e
       = (called (C.add_mint (C.ScriptHash_from_bytes (C.fromHex policyId)) minted
                    (plutus_witness redeemer None)) e, [], Ok tt).
Proof.
  intros Hne Hsame. destruct assets as [|[u0 q0] rest]; [contradiction|].
  exists (slice_to 56 u0).
  destruct (mint_forEach_same (slice_to 56 u0) ((u0, q0) :: rest)
              (map fst ((u0, q0) :: rest))) with (acc := @nil (C.AssetName * C.Int))
    as [minted [Hm _]].
  - auto.
  - intros u Hu. apply Hsame; [exact Hu|now left].
  - exists minted. split.
    + intros u Hu. apply Hsame; [exact Hu|now left].
    + unfold mintAssets. cbn [map fst] in *. rewrite Hm. reflexivity.
Qed.

(** X19: assets of two policies.  Two non-empty asset maps, each of one
    policy, minted by two chained calls give two mint directives, in the
    order of the calls; when the two policies differ, the same assets handed
    to one call make it throw and register nothing. *)
Theorem mintAssets_chained (assets1 assets2 : Assets) (r1 r2 r : option Redeemer) e :
  assets1 <> [] -> assets2 <> [] ->
  (forall u1 u2, In u1 (map fst assets1) -> In u2 (map fst assets1) ->
                 slice_to 56 u1 = slice_to 56 u2) ->
  (forall u1 u2, In u1 (map fst assets2) -> In u2 (map fst assets2) ->
                 slice_to 56 u1 = slice_to 56 u2) ->
  exists p1 m1 p2 m2,
    (forall u, In u (map fst assets1) -> slice_to 56 u = p1)
    /\ (forall u, In u (map fst assets2) -> slice_to 56 u = p2)
    /\ (mintAssets assets1 r1 ;; mintAssets assets2 r2)%tx e
       = ({| txBuilder :=
               txBuilder e
               ++ [C.add_mint (C.ScriptHash_from_bytes (C.fromHex p1)) m1
                     (plutus_witness r1 None);
                   C.add_mint (C.ScriptHash_from_bytes (C.fromHex p2)) m2
                     (plutus_witness r2 None)];
             events := events e; user := user e |}, [], Ok tt)
    /\ (p1 <> p2 -> mintAssets (assets1 ++ assets2) r e = (e, [], Throw MixedPolicyError)).
Proof.
  intros Hn1 Hn2 Hs1 Hs2.
  destruct (mintAssets_one_policy assets1 r1 e Hn1 Hs1) as [p1 [m1 [Hp1 Hm1]]].
  destruct (mintAssets_one_policy assets2 r2
              (called (C.add_mint (C.ScriptHash_from_bytes (C.fromHex p1)) m1
                         (plutus_witness r1 None)) e) Hn2 Hs2) as [p2 [m2 [Hp2 Hm2]]].
  exists p1, m1, p2, m2. split; [exact Hp1|]. split; [exact Hp2|]. split.
  - unfold bind. rewrite Hm1, Hm2. unfold called. cbn. now rewrite <- app_assoc.
  - intros Hne. unfold mintAssets.
    destruct assets1 as [|[u0 q0] rest1]; [contradiction|].
    cbn [app map fst]. rewrite mint_forEach_mixed; [reflexivity|auto|].
    destruct assets2 as [|[v0 w0] rest2]; [contradiction|].
    exists v0. split.
    + cbn. right. rewrite map_app. apply in_or_app. right. now left.
    + rewrite (Hp2 v0) by now left. rewrite (Hp1 u0) by now left. congruence.
Qed.



(** X21: what [payToAddressWithData] attaches.  With both a non-empty
    [asHash] and a non-empty [inline] it throws and adds nothing.  With
    [asHash] alone the output carries the hash of the datum and the datum
    itself is added to the witness data, before the output; with [inline]
    alone the output carries the datum and nothing goes to the witness data.
    With neither datum and no script reference it does what [payToAddress]
    does.  In every successful case the output carries a script reference
    exactly when one was given. *)
Theorem payToAddressWithData_attaches (address : Address) (o : OutputData)
  (assets : Assets) e :
  (truthy (asHash o) = true -> truthy (inline o) = true ->
   payToAddressWithData address (ofOutputData o) assets e
   = (e, [], Throw ConflictingDatumError))
  /\ (truthy (asHash o) = true -> truthy (inline o) = false ->
      exists output,
        payToAddressWithData address (ofOutputData o) assets e
        = ({| txBuilder :=
                txBuilder e
                ++ [C.add_plutus_data
                      (C.PlutusData_from_bytes (C.fromHex (the (asHash o))));
                    C.add_output output];
              events := events e; user := user e |}, [], Ok tt)
        /\ C.out_datum output
           = Some (C.new_data_hash
                     (C.hash_plutus_data
                        (C.PlutusData_from_bytes (C.fromHex (the (asHash o))))))
        /\ C.out_script_ref output = option_map script_ref (scriptRef o))
  /\ (truthy (asHash o) = false -> truthy (inline o) = true ->
      exists output,
        payToAddressWithData address (ofOutputData o) assets e
        = (called (C.add_output output) e, [], Ok tt)
        /\ C.out_datum output
           = Some (C.new_data
                     (C.Data_new (C.PlutusData_from_bytes (C.fromHex (the (inline o))))))
        /\ C.out_script_ref output = option_map script_ref (scriptRef o))
  /\ (truthy (asHash o) = false -> truthy (inline o) = false ->
      exists output,
        payToAddressWithData address (ofOutputData o) assets e
        = (called (C.add_output output) e, [], Ok tt)
        /\ C.out_datum output = None
        /\ C.out_script_ref output = option_map script_ref (scriptRef o)
        /\ (scriptRef o = None ->
            payToAddressWithData address (ofOutputData o) assets e
            = payToAddress address assets e)).
Proof.
  unfold payToAddressWithData. cbn [as_output_data].
  repeat match goal with |- _ /\ _ => split end; intros Ha Hi; rewrite Ha, Hi;
    cbn [andb]; try reflexivity;
    unfold bind, call, ret, called, payToAddress; cbn;
    rewrite <- ?app_assoc; cbn;
    eexists; (split; [reflexivity|]);
    destruct (scriptRef o); cbn; repeat split; intros; try discriminate; reflexivity.
Qed.

End Minting.

(** X18, at three tokens of one policy, the last with the empty name. *)
Lemma mintAssets_named_witness :
  mintAssets (map (unit_of policyA) named_tokens) None (env (Tx_new tt))
  = (called (C.add_mint (C.ScriptHash_from_bytes (C.fromHex policyA))
               [(C.AssetName_new (C.fromHex "746f6b656e31"), C.Int_from_str 10%Z);
                (C.AssetName_new (C.fromHex "746f6b656e32"), C.Int_from_str 5%Z);
                (C.AssetName_new (C.fromHex ""), C.Int_from_str 1%Z)]
               None) (env (Tx_new tt)), [], Ok tt).
Proof.
  apply (mintAssets_named policyA named_tokens None (env (Tx_new tt))).
  - reflexivity.
  - discriminate.
  - repeat constructor; cbn; intuition discriminate.
Defined.

(** X19, at one token of each of two policies. *)
Lemma mintAssets_chained_witness :
  exists p1 m1 p2 m2,
    (mintAssets assets_of_A None ;; mintAssets assets_of_B None)%tx (env (Tx_new tt))
    = ({| txBuilder :=
            [C.add_mint (C.ScriptHash_from_bytes (C.fromHex p1)) m1 None;
             C.add_mint (C.ScriptHash_from_bytes (C.fromHex p2)) m2 None];
          events := []; user := tt |}, [], Ok tt)
    /\ mintAssets (assets_of_A ++ assets_of_B) None (env (Tx_new tt))
       = (env (Tx_new tt), [], Throw MixedPolicyError).
Proof.
  destruct (mintAssets_chained assets_of_A assets_of_B None None None (env (Tx_new tt)))
    as [p1 [m1 [p2 [m2 [H1 [H2 [Hc Hm]]]]]]].
  - discriminate.
  - discriminate.
  - intros u1 u2 [<-|[]] [<-|[]]. reflexivity.
  - intros u1 u2 [<-|[]] [<-|[]]. reflexivity.
  - exists p1, m1, p2, m2. split; [exact Hc|]. apply Hm.
    rewrite <- (H1 (policyA ++ "aa")%string) by (now left).
    rewrite <- (H2 (policyB ++ "bb")%string) by (now left).
    discriminate.
Defined.

(** X21, at an output with a datum hash and a native script reference. *)
Lemma payToAddressWithData_attaches_witness :
  let o := {| asHash := Some "d87980"; inline := None;
              scriptRef := Some {| script_type := Native; script := "8200581c" |} |} in
  exists output,
    payToAddressWithData base_address (ofOutputData o) [("lovelace", 2000000%Z)]
      (env (Tx_new tt))
    = ({| txBuilder :=
            [C.add_plutus_data (C.PlutusData_from_bytes (C.fromHex "d87980"));
             C.add_output output];
          events := []; user := tt |}, [], Ok tt)
    /\ C.out_datum output
       = Some (C.new_data_hash
                 (C.hash_plutus_data (C.PlutusData_from_bytes (C.fromHex "d87980"))))
    /\ C.out_script_ref output
       = Some (C.ScriptRef_new
                 (C.new_native (C.NativeScript_from_bytes (C.fromHex "8200581c")))).
Proof.
  intros o.
  apply (proj1 (proj2 (payToAddressWithData_attaches base_address o
                         [("lovelace", 2000000%Z)] (env (Tx_new tt)))));
    reflexivity.
Defined.
